(** * LCD-Screenshot: the browser-side controller [gui/js/main.js]

    A shallow embedding of the script's request orchestration: the generic
    transport [doAjax], the debounced refresh [refreshLCD] with its timer,
    and the two completion callbacks that route a response into the page or
    into an alert.  The script runs as a classic (sloppy mode) script: it
    assigns the undeclared names [async] and [lcdContentElement], which a
    strict-mode or module script would reject with a ReferenceError on the
    very first call of [doAjax].  [getMethods], which nothing calls, is
    left out. *)

From Stdlib Require Import Ascii DecimalString.
From stdpp Require Import gmap strings list.

Local Open Scope string_scope.
Local Open Scope list_scope.
Local Set Warnings "-register-all".

(** ** JavaScript values *)

Module JS.

(** The values the script handles: what [JSON.parse] can return, plus
    [undefined].  Numbers are the integers JavaScript holds exactly (below
    2^53 in size), which it prints digit by digit; objects and arrays inside a
    value are immutable trees, with properties in insertion order.  That is
    the order [JSON.stringify] emits them in as long as no key is an array
    index, which JavaScript would move to the front; the script's own keys
    ([input-data], [svg-data], [token], [result]) are not. *)
Inductive val : Type :=
| Undefined
| Null
| Bool (b : bool)
| Num (z : Z)
| Str (s : string)
| Arr (vs : list val)
| Obj (fs : list (string * val)).

Inductive exn : Type :=
| TypeError (msg : string)
| SyntaxError (msg : string).

(** How an evaluation ends: normally with a value, or with a thrown
    exception. *)
Inductive outcome (A : Type) : Type :=
| Ret (a : A)
| Throw (e : exn).
Arguments Ret {A} a.
Arguments Throw {A} e.

(** ToBoolean on the strings and handles the script tests. *)
Definition truthy_str (s : string) : bool :=
  match s with EmptyString => false | String _ _ => true end.

(** [x || d] where [x] is [undefined] ([None]) or a string. *)
Definition or_str (x : option string) (d : string) : string :=
  match x with
  | Some s => if truthy_str s then s else d
  | None => d
  end.

(** [o[k]] on a property list: the first entry, keys being unique. *)
Fixpoint lookup_prop (k : string) (fs : list (string * val)) : option val :=
  match fs with
  | [] => None
  | (k', v) :: fs' => if String.eqb k k' then Some v else lookup_prop k fs'
  end.

(** [o[k] = v]: an existing property keeps its place, a new one goes last. *)
Fixpoint set_prop (k : string) (v : val) (fs : list (string * val))
  : list (string * val) :=
  match fs with
  | [] => [(k, v)]
  | (k', v') :: fs' =>
      if String.eqb k k' then (k', v) :: fs' else (k', v') :: set_prop k v fs'
  end.

Definition dec_nat (n : nat) : string := NilZero.string_of_uint (Nat.to_uint n).
Definition dec_Z (z : Z) : string := NilZero.string_of_int (Z.to_int z).

Fixpoint join (sep : string) (ss : list string) : string :=
  match ss with
  | [] => ""
  | [s] => s
  | s :: ss' => s +:+ sep +:+ join sep ss'
  end.

(** ToString, as applied by string concatenation and by the [innerHTML]
    setter, except that the setter maps [null] to the empty string
    (see [Host.DOMString]). *)
Fixpoint ToString (v : val) : string :=
  match v with
  | Undefined => "undefined"
  | Null => "null"
  | Bool b => if b then "true" else "false"
  | Num z => dec_Z z
  | Str s => s
  | Arr vs =>
      join "," (map (fun x => match x with
                              | Undefined | Null => ""
                              | _ => ToString x
                              end) vs)
  | Obj _ => "[object Object]"
  end.

(** *** [JSON.stringify] *)

Definition dquote : string := String (ascii_of_nat 34) "".
Definition backslash : string := String (ascii_of_nat 92) "".

Definition hex_digit (n : nat) : ascii :=
  ascii_of_nat (if Nat.ltb n 10 then 48 + n else 87 + n)%nat.

Definition escape_char (c : ascii) : string :=
  let n := nat_of_ascii c in
  if Nat.eqb n 34 then backslash +:+ dquote
  else if Nat.eqb n 92 then backslash +:+ backslash
  else if Nat.eqb n 8 then backslash +:+ "b"
  else if Nat.eqb n 9 then backslash +:+ "t"
  else if Nat.eqb n 10 then backslash +:+ "n"
  else if Nat.eqb n 12 then backslash +:+ "f"
  else if Nat.eqb n 13 then backslash +:+ "r"
  else if Nat.ltb n 32 then
    backslash +:+ "u00" +:+ String (hex_digit (Nat.div n 16)) (String (hex_digit (Nat.modulo n 16)) "")
  else String c "".

Fixpoint escape (s : string) : string :=
  match s with
  | EmptyString => ""
  | String c s' => escape_char c +:+ escape s'
  end.

Definition quote (s : string) : string := dquote +:+ escape s +:+ dquote.

(** [None] stands for the result [undefined] (nothing to serialize): a
    property with such a value is left out, an array element becomes
    [null]. *)
Fixpoint JSON_stringify (v : val) : option string :=
  match v with
  | Undefined => None
  | Null => Some "null"
  | Bool b => Some (if b then "true" else "false")
  | Num z => Some (dec_Z z)
  | Str s => Some (quote s)
  | Arr vs =>
      Some ("[" +:+ join "," (map (fun x => default "null" (JSON_stringify x)) vs) +:+ "]")
  | Obj fs =>
      Some ("{" +:+
            join "," (omap (fun kv => match JSON_stringify (snd kv) with
                                      | Some s => Some (quote (fst kv) +:+ ":" +:+ s)
                                      | None => None
                                      end) fs) +:+ "}")
  end.

(** [text.split("\n")]: the pieces between line feeds, empty pieces
    included. *)
Definition LF : ascii := ascii_of_nat 10.

Fixpoint split_lines (s : string) : list string :=
  match s with
  | EmptyString => [""]
  | String c s' =>
      if Ascii.eqb c LF then "" :: split_lines s'
      else match split_lines s' with
           | l :: ls => String c l :: ls
           | [] => [String c ""]
           end
  end.

End JS.

Import JS.

(** ** The host: document, timers, transport *)

Module Host.

(** An element of the page, as far as the script reads or writes it. *)
Record element : Type := mkElement {
  innerHTML : string;
  value : string
}.

(** A reference to an element held in a variable: the variable was never
    assigned, holds [null], or holds the element with that id. *)
Inductive eref : Type :=
| EUnset
| ENull
| EElem (id : string).

(** What a completion callback sees through [this]. *)
Record xhr : Type := mkXhr {
  readyState : nat;
  status : nat;
  statusText : string;
  responseText : string
}.

(** The two functions the script installs as [onreadystatechange]. *)
Inductive callback : Type :=
| cb_refreshLCDHandler
| cb_saveScreenshot.

(** A request, as the script hands it to the transport object: the
    arguments of [open], the headers set, the callback installed and the
    argument of [send].  What the browser makes of them (method
    normalisation, the body of a GET being dropped) is not modelled. *)
Record request : Type := mkRequest {
  req_method : string;
  req_url : string;
  req_async : val;
  req_headers : list (string * string);
  req_onreadystatechange : option callback;
  req_body : option string
}.

(** The state the script and its host share.  The last five fields are
    the observable trace: they only grow.  [w_markup] is the host's reading
    of markup in the one element the script assigns to, the preview
    container: assigning [s] to [innerHTML] makes the host parse [s], and
    reading [innerHTML] serializes what was parsed, which gives
    [w_markup s] and not always [s] itself. *)
Record World : Type := mkWorld {
  w_token : val;                                      (* [window.token] *)
  w_async : val;                                      (* the implicit global [async] *)
  w_lcdContentElement : eref;                         (* the implicit global [lcdContentElement] *)
  w_refreshLCDTimer : option positive;                (* [refreshLCDTimer]: [null] or a handle *)
  w_XMLHttpRequest : bool;                            (* [window.XMLHttpRequest] is there *)
  w_ActiveXObject : bool;                             (* [window.ActiveXObject] is there *)
  w_markup : string -> string;                        (* markup as the host reads it back *)
  w_dom : gmap string element;                        (* the elements of the document, by id *)
  w_heap : list (list (string * val));                (* the script's objects, by address *)
  w_now : nat;                                        (* the clock, in ms *)
  w_next_timer : positive;                            (* the next timer handle *)
  w_timers : list (positive * nat);                   (* pending timeouts: handle, due time *)
  w_requests : list request;                          (* the requests sent, oldest first *)
  w_alerts : list string;                             (* the alerts shown, oldest first *)
  w_console : list string;                            (* the [console.error] messages *)
  w_parsed : list string;                             (* the texts handed to [JSON.parse] *)
  w_uncaught : list exn                               (* exceptions that escaped a task *)
}.

(** Updating one field. *)
Definition set_async (x : val) (st : World) : World :=
  mkWorld
    (w_token st) x (w_lcdContentElement st) (w_refreshLCDTimer st)
    (w_XMLHttpRequest st) (w_ActiveXObject st) (w_markup st) (w_dom st)
    (w_heap st) (w_now st) (w_next_timer st) (w_timers st)
    (w_requests st) (w_alerts st) (w_console st) (w_parsed st)
    (w_uncaught st).

Definition set_lcdContentElement (x : eref) (st : World) : World :=
  mkWorld
    (w_token st) (w_async st) x (w_refreshLCDTimer st)
    (w_XMLHttpRequest st) (w_ActiveXObject st) (w_markup st) (w_dom st)
    (w_heap st) (w_now st) (w_next_timer st) (w_timers st)
    (w_requests st) (w_alerts st) (w_console st) (w_parsed st)
    (w_uncaught st).

Definition set_refreshLCDTimer (x : option positive) (st : World) : World :=
  mkWorld
    (w_token st) (w_async st) (w_lcdContentElement st) x
    (w_XMLHttpRequest st) (w_ActiveXObject st) (w_markup st) (w_dom st)
    (w_heap st) (w_now st) (w_next_timer st) (w_timers st)
    (w_requests st) (w_alerts st) (w_console st) (w_parsed st)
    (w_uncaught st).

Definition set_dom (x : gmap string element) (st : World) : World :=
  mkWorld
    (w_token st) (w_async st) (w_lcdContentElement st) (w_refreshLCDTimer st)
    (w_XMLHttpRequest st) (w_ActiveXObject st) (w_markup st) x
    (w_heap st) (w_now st) (w_next_timer st) (w_timers st)
    (w_requests st) (w_alerts st) (w_console st) (w_parsed st)
    (w_uncaught st).

Definition set_heap (x : list (list (string * val))) (st : World) : World :=
  mkWorld
    (w_token st) (w_async st) (w_lcdContentElement st) (w_refreshLCDTimer st)
    (w_XMLHttpRequest st) (w_ActiveXObject st) (w_markup st) (w_dom st)
    x (w_now st) (w_next_timer st) (w_timers st)
    (w_requests st) (w_alerts st) (w_console st) (w_parsed st)
    (w_uncaught st).

Definition set_now (x : nat) (st : World) : World :=
  mkWorld
    (w_token st) (w_async st) (w_lcdContentElement st) (w_refreshLCDTimer st)
    (w_XMLHttpRequest st) (w_ActiveXObject st) (w_markup st) (w_dom st)
    (w_heap st) x (w_next_timer st) (w_timers st)
    (w_requests st) (w_alerts st) (w_console st) (w_parsed st)
    (w_uncaught st).

Definition set_next_timer (x : positive) (st : World) : World :=
  mkWorld
    (w_token st) (w_async st) (w_lcdContentElement st) (w_refreshLCDTimer st)
    (w_XMLHttpRequest st) (w_ActiveXObject st) (w_markup st) (w_dom st)
    (w_heap st) (w_now st) x (w_timers st)
    (w_requests st) (w_alerts st) (w_console st) (w_parsed st)
    (w_uncaught st).

Definition set_timers (x : list (positive * nat)) (st : World) : World :=
  mkWorld
    (w_token st) (w_async st) (w_lcdContentElement st) (w_refreshLCDTimer st)
    (w_XMLHttpRequest st) (w_ActiveXObject st) (w_markup st) (w_dom st)
    (w_heap st) (w_now st) (w_next_timer st) x
    (w_requests st) (w_alerts st) (w_console st) (w_parsed st)
    (w_uncaught st).

Definition set_requests (x : list request) (st : World) : World :=
  mkWorld
    (w_token st) (w_async st) (w_lcdContentElement st) (w_refreshLCDTimer st)
    (w_XMLHttpRequest st) (w_ActiveXObject st) (w_markup st) (w_dom st)
    (w_heap st) (w_now st) (w_next_timer st) (w_timers st)
    x (w_alerts st) (w_console st) (w_parsed st)
    (w_uncaught st).

Definition set_alerts (x : list string) (st : World) : World :=
  mkWorld
    (w_token st) (w_async st) (w_lcdContentElement st) (w_refreshLCDTimer st)
    (w_XMLHttpRequest st) (w_ActiveXObject st) (w_markup st) (w_dom st)
    (w_heap st) (w_now st) (w_next_timer st) (w_timers st)
    (w_requests st) x (w_console st) (w_parsed st)
    (w_uncaught st).

Definition set_console (x : list string) (st : World) : World :=
  mkWorld
    (w_token st) (w_async st) (w_lcdContentElement st) (w_refreshLCDTimer st)
    (w_XMLHttpRequest st) (w_ActiveXObject st) (w_markup st) (w_dom st)
    (w_heap st) (w_now st) (w_next_timer st) (w_timers st)
    (w_requests st) (w_alerts st) x (w_parsed st)
    (w_uncaught st).

Definition set_parsed (x : list string) (st : World) : World :=
  mkWorld
    (w_token st) (w_async st) (w_lcdContentElement st) (w_refreshLCDTimer st)
    (w_XMLHttpRequest st) (w_ActiveXObject st) (w_markup st) (w_dom st)
    (w_heap st) (w_now st) (w_next_timer st) (w_timers st)
    (w_requests st) (w_alerts st) (w_console st) x
    (w_uncaught st).

Definition set_uncaught (x : list exn) (st : World) : World :=
  mkWorld
    (w_token st) (w_async st) (w_lcdContentElement st) (w_refreshLCDTimer st)
    (w_XMLHttpRequest st) (w_ActiveXObject st) (w_markup st) (w_dom st)
    (w_heap st) (w_now st) (w_next_timer st) (w_timers st)
    (w_requests st) (w_alerts st) (w_console st) (w_parsed st)
    x.

(** The script's computations: state passing with exceptions.  The state
    reached when an exception is thrown is kept. *)
Definition M (A : Type) : Type := World -> outcome A * World.

#[global] Instance M_ret : MRet M := fun A a st => (Ret a, st).
#[global] Instance M_bind : MBind M := fun A B f m st =>
  match m st with
  | (Ret a, st') => f a st'
  | (Throw e, st') => (Throw e, st')
  end.

Definition throw {A : Type} (e : exn) : M A := fun st => (Throw e, st).
Definition get : M World := fun st => (Ret st, st).
Definition modify (f : World -> World) : M unit := fun st => (Ret tt, f st).


(** *** What the host offers the script *)

Definition alert (msg : string) : M unit :=
  modify (fun st => set_alerts (w_alerts st ++ [msg]) st).

Definition console_error (msg : string) : M unit :=
  modify (fun st => set_console (w_console st ++ [msg]) st).

(** [document.getElementById(id)]: the element, or [null]. *)
Definition getElementById (id : string) : M eref :=
  st ← get;
  mret (match w_dom st !! id with Some _ => EElem id | None => ENull end).

(** Reading [e.innerHTML] and [e.value].  On [null] this is a TypeError.
    No element ever leaves the document, so a reference obtained from
    [getElementById] stays good; a dangling one reads as empty. *)
Definition read_element (field : element -> string) (name : string) (e : eref)
  : M string :=
  match e with
  | EElem id => st ← get; mret (default "" (field <$> w_dom st !! id))
  | _ => throw (TypeError ("cannot read " +:+ name +:+ " of null"))
  end.

(** The conversion the [innerHTML] setter applies to the assigned value:
    ToString, with [null] giving the empty string. *)
Definition DOMString (v : val) : string :=
  match v with Null => "" | _ => ToString v end.

(** [e.innerHTML = s].  The element's [innerHTML] is from then on what the
    host reads back for [s].  The document is known by the ids the script
    looks up: the elements the markup brings into it or removes from it
    are not followed. *)
Definition write_innerHTML (e : eref) (s : string) : M unit :=
  match e with
  | EElem id =>
      modify (fun st =>
        set_dom
          (alter (fun el => mkElement (w_markup st s) (value el)) id (w_dom st)) st)
  | _ => throw (TypeError "cannot set innerHTML of null")
  end.

(** [setTimeout(f, delay)].  The script has one call of it, so a pending
    timeout does not name its function: it is [refreshLCD]'s.  Handles are
    positive, as HTML requires, hence truthy. *)
Definition setTimeout (delay : nat) : M positive :=
  st ← get;
  let h := w_next_timer st in
  modify (fun st =>
    set_timers (w_timers st ++ [(h, w_now st + delay)])
      (set_next_timer (Pos.succ h) st));;
  mret h.

(** [clearTimeout(h)]: nothing happens when [h] is not pending. *)
Definition clearTimeout (h : positive) : M unit :=
  modify (fun st =>
    set_timers (List.filter (fun t => negb (Pos.eqb (fst t) h)) (w_timers st)) st).

(** An object literal: a fresh object, at the next address. *)
Definition new_object (fs : list (string * val)) : M nat :=
  st ← get;
  modify (set_heap (w_heap st ++ [fs]));;
  mret (length (w_heap st)).

(** [o[k] = v] on the object at address [o]. *)
Definition write_property (o : nat) (k : string) (v : val) : M unit :=
  modify (fun st => set_heap (alter (set_prop k v) o (w_heap st)) st).

(** [JSON.stringify(o)] for the object at address [o]. *)
Definition stringify_object (o : nat) : M (option string) :=
  st ← get;
  mret (JSON_stringify (Obj (default [] (w_heap st !! o)))).

(** [v[k]] for a key [k] that no prototype defines: a TypeError on
    [null] and [undefined], the own property on an object, [undefined]
    on anything else. *)
Definition read_property (v : val) (k : string) : M val :=
  match v with
  | Undefined | Null => throw (TypeError ("cannot read " +:+ k +:+ " of null"))
  | Obj fs => mret (default Undefined (lookup_prop k fs))
  | _ => mret Undefined
  end.

(** The transport object under construction.  [open] is taken to accept
    the method and the URL it is given: the script's own are accepted by
    every browser. *)
Definition new_xhr : request := mkRequest "" "" Undefined [] None None.

Definition xhr_open (method url : string) (async : val) (x : request) : request :=
  mkRequest method url async (req_headers x) (req_onreadystatechange x) (req_body x).

Definition setRequestHeader (name v : string) (x : request) : request :=
  mkRequest (req_method x) (req_url x) (req_async x) (req_headers x ++ [(name, v)])
    (req_onreadystatechange x) (req_body x).

Definition set_onreadystatechange (h : option callback) (x : request) : request :=
  mkRequest (req_method x) (req_url x) (req_async x) (req_headers x) h (req_body x).

(** [x.send(body)]: the request goes out. *)
Definition xhr_send (x : request) (body : option string) : M unit :=
  modify (fun st =>
    set_requests
      (w_requests st ++
       [mkRequest (req_method x) (req_url x) (req_async x) (req_headers x)
          (req_onreadystatechange x) body]) st).

End Host.

Import Host.

(** ** The script *)

Section Script.

(** [JSON.parse] is the host's: the script is modelled for any parser.  It
    returns the parsed value or throws (a SyntaxError). *)
Variable JSON_parse : string -> outcome val.

Definition call_JSON_parse (text : string) : M val :=
  modify (fun st => set_parsed (w_parsed st ++ [text]) st);;
  match JSON_parse text with
  | Ret v => mret v
  | Throw e => throw e
  end.

Definition getHttpRequestObject : M (option request) :=
  st ← get;
  if w_XMLHttpRequest st then mret (Some new_xhr)
  else if w_ActiveXObject st then mret (Some new_xhr)
  else mret None.

(** [doAjax(url, method, responseHandler, data)].  An argument left out,
    [undefined] or [null] is [None]; [data] is otherwise the address of the
    caller's object.  The result is [false] or [undefined]. *)
Definition doAjax (url method : option string) (responseHandler : option callback)
    (data : option nat) : M val :=
  let url := or_str url "" in
  let method := or_str method "GET" in
  modify (set_async (Bool true));;
  data ← match data with
         | Some o => mret o
         | None => new_object []
         end;
  st ← get;
  write_property data "token" (w_token st);;
  if String.eqb url "" then
    alert "URL can not be null/blank";;
    mret (Bool false)
  else
    xmlHttpRequest ← getHttpRequestObject;
    match xmlHttpRequest with
    | Some x =>
        st ← get;
        let x := xhr_open method url (w_async st) x in
        let x := if String.eqb method "POST"
                 then setRequestHeader "Content-Type" "application/json" x
                 else x in
        let x := set_onreadystatechange responseHandler x in
        body ← stringify_object data;
        xhr_send x body;;
        mret Undefined
    | None =>
        alert "Please use browser with Ajax support.!";;
        mret Undefined
    end.

(** Both callbacks open with the same test. *)
Definition not_done_ok (this : xhr) : bool :=
  negb (Nat.eqb (readyState this) 4) || negb (Nat.eqb (status this) 200).

Definition refreshLCDHandler (this : xhr) : M unit :=
  if not_done_ok this then mret tt
  else if truthy_str (responseText this) then
    response ← call_JSON_parse (responseText this);
    lcdContentElement ← getElementById "lcd-screenshot-content";
    modify (set_lcdContentElement lcdContentElement);;
    match lcdContentElement with
    | EElem _ =>
        result ← read_property response "result";
        write_innerHTML lcdContentElement (DOMString result)
    | _ =>
        console_error "Could not find element with id 'lcd-screenshot-content'"
    end
  else mret tt.

Definition getTextInputAsLines : M (list string) :=
  e ← getElementById "text-input";
  text ← read_element value "value" e;
  mret (split_lines text).

Definition refreshLCD : M unit :=
  let duration := 500 in
  st ← get;
  match w_refreshLCDTimer st with
  | Some h => clearTimeout h
  | None => mret tt
  end;;
  h ← setTimeout duration;
  modify (set_refreshLCDTimer (Some h)).

(** The function [refreshLCD] hands to [setTimeout]. *)
Definition refreshLCD_timeout : M val :=
  lines ← getTextInputAsLines;
  request ← new_object [("input-data", Arr (Str <$> lines))];
  doAjax (Some "/refresh/lcd") (Some "POST") (Some cb_refreshLCDHandler) (Some request).

(** The function [saveScreenshot] hands to [doAjax]. *)
Definition saveScreenshot_handler (this : xhr) : M unit :=
  if not_done_ok this then
    alert ("Error saving screenshot " +:+ dec_nat (status this) +:+ ": " +:+
           statusText this)
  else alert "Screenshot saved successfully!".

(** The object literal is built, and the preview read, before [doAjax] is
    entered. *)
Definition saveScreenshot : M val :=
  e ← getElementById "lcd-screenshot-content";
  svg ← read_element innerHTML "innerHTML" e;
  data ← new_object [("svg-data", Str svg)];
  doAjax (Some "/save/screenshot") (Some "POST") (Some cb_saveScreenshot) (Some data).

(** The top level of the script, run once when the page loads. *)
Definition main : M unit :=
  doAjax (Some "/init") (Some "POST") None None;;
  modify (set_refreshLCDTimer None).

(** *** [getMethods]

    The helper walks the properties of any object, so the object is given
    by what the walk meets: for each property [for (id in obj)] visits, in
    that order, its name and what the two reads [obj[id]] of the loop body
    give.  A read throws or gives a value, of which the body only uses
    whether [typeof] calls it a function and what its [toString()]
    returns. *)

Record reading : Type := mkReading {
  is_function : bool;
  toString_result : outcome string
}.

Record property : Type := mkProperty {
  prop_id : string;
  first_read : outcome reading;      (* [obj[id]] under [typeof] *)
  second_read : outcome reading      (* [obj[id]] before [.toString()] *)
}.

(** The [try] block: what it pushes, or the exception that leaves it. *)
Definition getMethods_try (p : property) : outcome (list string) :=
  match first_read p with
  | Throw e => Throw e
  | Ret r1 =>
      if is_function r1 then
        match second_read p with
        | Throw e => Throw e
        | Ret r2 =>
            match toString_result r2 with
            | Throw e => Throw e
            | Ret text => Ret [prop_id p +:+ ": " +:+ text]
            end
        end
      else Ret []
  end.

(** One turn of the loop on the array [result]. *)
Definition getMethods_turn (result : list string) (p : property) : list string :=
  match getMethods_try p with
  | Ret pushed => result ++ pushed
  | Throw _ => result ++ [prop_id p +:+ ": inaccessible"]
  end.

Definition getMethods (obj : list property) : list string :=
  fold_left getMethods_turn obj [].

(** ** The event loop *)

(** A task runs to its end; an exception that escapes it is reported by
    the host and the loop goes on. *)
Definition run_task {A : Type} (m : M A) (st : World) : World :=
  match m st with
  | (Ret _, st') => st'
  | (Throw e, st') => set_uncaught (w_uncaught st' ++ [e]) st'
  end.

Definition is_due (now : nat) (t : positive * nat) : bool := Nat.leb (snd t) now.

(** One millisecond passes: the timeouts now due leave the pending list
    and their function runs, oldest first. *)
Definition tick (st : World) : World :=
  let now := S (w_now st) in
  let due := List.filter (is_due now) (w_timers st) in
  let rest := List.filter (fun t => negb (is_due now t)) (w_timers st) in
  fold_left (fun s _ => run_task refreshLCD_timeout s) due
    (set_timers rest (set_now now st)).

Fixpoint advance (ms : nat) (st : World) : World :=
  match ms with
  | 0 => st
  | S ms' => advance ms' (tick st)
  end.

(** The user edits the text input (there is nothing to edit when the page
    has no such element). *)
Definition type_text (v : string) (st : World) : World :=
  set_dom (alter (fun el => mkElement (innerHTML el) v) "text-input" (w_dom st)) st.

(** An input-change event: the text changes and the page calls
    [refreshLCD]. *)
Definition input_event (v : string) (st : World) : World :=
  run_task refreshLCD (type_text v st).

(** A burst: each event after the given time since the one before. *)
Fixpoint burst (evs : list (nat * string)) (st : World) : World :=
  match evs with
  | [] => st
  | (gap, v) :: evs' => burst evs' (input_event v (advance gap st))
  end.

(** A host runs a timeout when it gets to it: never before the timeout is
    due, possibly later.  A schedule tells what happens step by step: an
    input-change event, time passing, or the host running the timeouts that
    are due by then, oldest first.  ([tick] is the host that runs every
    timeout in the millisecond it falls due.) *)
Inductive host_step : Type :=
| hs_input (v : string)
| hs_wait (ms : nat)
| hs_timeouts.

Definition run_due_timeouts (st : World) : World :=
  let due := List.filter (is_due (w_now st)) (w_timers st) in
  let rest := List.filter (fun t => negb (is_due (w_now st) t)) (w_timers st) in
  fold_left (fun s _ => run_task refreshLCD_timeout s) due (set_timers rest st).

Definition host_do (st : World) (hs : host_step) : World :=
  match hs with
  | hs_input v => input_event v st
  | hs_wait ms => set_now (w_now st + ms) st
  | hs_timeouts => run_due_timeouts st
  end.

Definition schedule (sch : list host_step) (st : World) : World :=
  fold_left host_do sch st.

(** The transport reports a change of state of a request: its callback,
    if it has one, runs with the transport object as [this]. *)
Definition invoke (cb : callback) (this : xhr) : M unit :=
  match cb with
  | cb_refreshLCDHandler => refreshLCDHandler this
  | cb_saveScreenshot => saveScreenshot_handler this
  end.

Definition readystatechange (r : request) (this : xhr) (st : World) : World :=
  match req_onreadystatechange r with
  | Some cb => run_task (invoke cb this) st
  | None => st
  end.

(** What can happen on a loaded page: the user changes the text, a
    millisecond passes, the user saves, the transport reports on the
    [i]-th request sent. *)
Inductive event : Type :=
| ev_input (v : string)
| ev_tick
| ev_save
| ev_report (i : nat) (this : xhr).

Definition step (st : World) (ev : event) : World :=
  match ev with
  | ev_input v => input_event v st
  | ev_tick => tick st
  | ev_save => run_task saveScreenshot st
  | ev_report i this =>
      match w_requests st !! i with
      | Some r => readystatechange r this st
      | None => st
      end
  end.

Definition run (evs : list event) (st : World) : World := fold_left step evs st.

End Script.

(** ** A reference [JSON.parse]

    The script is modelled for any parser; this one is used to run it.  It
    reads the JSON texts whose numbers are integers and whose [\u] escapes
    stay below 256, and reports anything else as a SyntaxError. *)

Module JSONRef.

Definition is_ws (c : ascii) : bool :=
  let n := nat_of_ascii c in
  Nat.eqb n 32 || Nat.eqb n 9 || Nat.eqb n 10 || Nat.eqb n 13.

Fixpoint skip_ws (s : string) : string :=
  match s with
  | String c s' => if is_ws c then skip_ws s' else s
  | EmptyString => s
  end.

Definition digit_of (c : ascii) : option Z :=
  let n := nat_of_ascii c in
  if Nat.leb 48 n && Nat.leb n 57 then Some (Z.of_nat (n - 48)) else None.

Definition hex_of (c : ascii) : option nat :=
  let n := nat_of_ascii c in
  if Nat.leb 48 n && Nat.leb n 57 then Some (n - 48)
  else if Nat.leb 65 n && Nat.leb n 70 then Some (n - 55)
  else if Nat.leb 97 n && Nat.leb n 102 then Some (n - 87)
  else None.

Fixpoint parse_digits (acc : Z) (s : string) : Z * string :=
  match s with
  | String c s' =>
      match digit_of c with
      | Some d => parse_digits (10 * acc + d) s'
      | None => (acc, s)
      end
  | EmptyString => (acc, s)
  end.

(** After the digits of an integer: no fraction and no exponent. *)
Definition ends_number (s : string) : bool :=
  match s with
  | String c _ =>
      negb (Ascii.eqb c "." || Ascii.eqb c "e" || Ascii.eqb c "E")
  | EmptyString => true
  end.

Definition parse_unsigned (s : string) : option (Z * string) :=
  match s with
  | String c s' =>
      match digit_of c with
      | Some d =>
          if Z.eqb d 0 then
            match s' with
            | String c' _ =>
                match digit_of c' with
                | Some _ => None
                | None => Some (0%Z, s')
                end
            | EmptyString => Some (0%Z, s')
            end
          else Some (parse_digits d s')
      | None => None
      end
  | EmptyString => None
  end.

Definition parse_number (s : string) : option (val * string) :=
  let '(neg, s1) := match s with
                    | String c s' => if Ascii.eqb c "-" then (true, s') else (false, s)
                    | EmptyString => (false, s)
                    end in
  match parse_unsigned s1 with
  | Some (n, rest) =>
      if ends_number rest then Some (Num (if neg then - n else n)%Z, rest) else None
  | None => None
  end.

Definition unescape (c : ascii) : option ascii :=
  let n := nat_of_ascii c in
  if Nat.eqb n 34 || Nat.eqb n 92 || Nat.eqb n 47 then Some c
  else if Ascii.eqb c "b" then Some (ascii_of_nat 8)
  else if Ascii.eqb c "f" then Some (ascii_of_nat 12)
  else if Ascii.eqb c "n" then Some (ascii_of_nat 10)
  else if Ascii.eqb c "r" then Some (ascii_of_nat 13)
  else if Ascii.eqb c "t" then Some (ascii_of_nat 9)
  else None.

Definition cons_char (c : ascii) (r : option (string * string))
  : option (string * string) :=
  match r with
  | Some (body, rest) => Some (String c body, rest)
  | None => None
  end.

(** The characters of a string literal after its opening quote, up to and
    including the closing one. *)
Fixpoint parse_string_body (s : string) : option (string * string) :=
  match s with
  | EmptyString => None
  | String c s' =>
      let n := nat_of_ascii c in
      if Nat.eqb n 34 then Some ("", s')
      else if Nat.eqb n 92 then
        match s' with
        | String e s'' =>
            match unescape e with
            | Some ch => cons_char ch (parse_string_body s'')
            | None =>
                match s'' with
                | String h1 (String h2 (String h3 (String h4 rest))) =>
                    match Ascii.eqb e "u", hex_of h1, hex_of h2, hex_of h3, hex_of h4 with
                    | true, Some 0, Some 0, Some a, Some b =>
                        cons_char (ascii_of_nat (16 * a + b)) (parse_string_body rest)
                    | _, _, _, _, _ => None
                    end
                | _ => None
                end
            end
        | EmptyString => None
        end
      else if Nat.ltb n 32 then None
      else cons_char c (parse_string_body s')
  end.

Definition parse_string (s : string) : option (string * string) :=
  match s with
  | String c s' => if Nat.eqb (nat_of_ascii c) 34 then parse_string_body s' else None
  | EmptyString => None
  end.

Definition expect (lit : string) (v : val) (s : string) : option (val * string) :=
  if String.prefix lit s
  then Some (v, String.substring (String.length lit) (String.length s - String.length lit) s)
  else None.

Section Composite.

Variable parse_value : string -> option (val * string).

(** The elements of an array after the first, [acc] holding those read,
    last first. *)
Fixpoint parse_elements (fuel : nat) (acc : list val) (s : string)
  : option (val * string) :=
  match fuel with
  | 0 => None
  | S fuel' =>
      match skip_ws s with
      | String c s' =>
          if Ascii.eqb c "]" then Some (Arr (rev acc), s')
          else if Ascii.eqb c "," then
            match parse_value s' with
            | Some (v, rest) => parse_elements fuel' (v :: acc) rest
            | None => None
            end
          else None
      | EmptyString => None
      end
  end.

Definition parse_member (s : string) : option ((string * val) * string) :=
  match parse_string (skip_ws s) with
  | Some (k, s1) =>
      match skip_ws s1 with
      | String c s2 =>
          if Ascii.eqb c ":" then
            match parse_value s2 with
            | Some (v, rest) => Some ((k, v), rest)
            | None => None
            end
          else None
      | EmptyString => None
      end
  | None => None
  end.

(** The members of an object after the first.  A repeated key keeps its
    first place and takes the last value. *)
Fixpoint parse_members (fuel : nat) (acc : list (string * val)) (s : string)
  : option (val * string) :=
  match fuel with
  | 0 => None
  | S fuel' =>
      match skip_ws s with
      | String c s' =>
          if Ascii.eqb c "}" then Some (Obj acc, s')
          else if Ascii.eqb c "," then
            match parse_member s' with
            | Some ((k, v), rest) => parse_members fuel' (set_prop k v acc) rest
            | None => None
            end
          else None
      | EmptyString => None
      end
  end.

End Composite.

Fixpoint parse_value (fuel : nat) (s : string) : option (val * string) :=
  match fuel with
  | 0 => None
  | S fuel' =>
      match skip_ws s with
      | String c s' =>
          if Ascii.eqb c "{" then
            match skip_ws s' with
            | String c' r =>
                if Ascii.eqb c' "}" then Some (Obj [], r)
                else
                  match parse_member (parse_value fuel') s' with
                  | Some (kv, rest) => parse_members (parse_value fuel') fuel' [kv] rest
                  | None => None
                  end
            | EmptyString => None
            end
          else if Ascii.eqb c "[" then
            match skip_ws s' with
            | String c' r =>
                if Ascii.eqb c' "]" then Some (Arr [], r)
                else
                  match parse_value fuel' s' with
                  | Some (v, rest) => parse_elements (parse_value fuel') fuel' [v] rest
                  | None => None
                  end
            | EmptyString => None
            end
          else if Nat.eqb (nat_of_ascii c) 34 then
            match parse_string_body s' with
            | Some (str, rest) => Some (Str str, rest)
            | None => None
            end
          else if Ascii.eqb c "t" then expect "true" (Bool true) (String c s')
          else if Ascii.eqb c "f" then expect "false" (Bool false) (String c s')
          else if Ascii.eqb c "n" then expect "null" Null (String c s')
          else parse_number (String c s')
      | EmptyString => None
      end
  end.

Definition JSON_parse (text : string) : outcome val :=
  match parse_value (S (String.length text)) text with
  | Some (v, rest) =>
      match skip_ws rest with
      | EmptyString => Ret v
      | String _ _ => Throw (SyntaxError "unexpected text after the JSON value")
      end
  | None => Throw (SyntaxError "not a JSON text of the fragment")
  end.

End JSONRef.

(** ** A reference reading of markup

    The script is modelled for any host reading of markup ([w_markup]);
    this one is used to run it.  It covers markup made of SVG elements
    with double-quoted attributes and plain text, where the one thing a
    browser changes is a self-closing tag: [<name .../>] reads back as
    [<name ...></name>]. *)

Module HTMLRef.

(** The name of a tag: what stands before the first space or slash. *)
Fixpoint tag_name (s : string) : string :=
  match s with
  | String c s' =>
      if Ascii.eqb c " " || Ascii.eqb c "/" then "" else String c (tag_name s')
  | EmptyString => ""
  end.

Fixpoint trim_right (s : string) : string :=
  match s with
  | EmptyString => ""
  | String c s' =>
      match trim_right s' with
      | EmptyString => if Ascii.eqb c " " then "" else String c ""
      | t => String c t
      end
  end.

(** [s] without its last character, when that is a slash. *)
Fixpoint strip_slash (s : string) : option string :=
  match s with
  | EmptyString => None
  | String c EmptyString => if Ascii.eqb c "/" then Some "" else None
  | String c s' => option_map (String c) (strip_slash s')
  end.

(** A tag read back, [inner] being what stood between its angle brackets. *)
Definition write_tag (inner : string) : string :=
  match strip_slash inner with
  | Some body =>
      match tag_name body with
      | EmptyString => "<" +:+ inner +:+ ">"
      | name => "<" +:+ trim_right body +:+ "></" +:+ name +:+ ">"
      end
  | None => "<" +:+ inner +:+ ">"
  end.

(** [tag] holds what was read of a tag that is still open. *)
Fixpoint reserialize_from (tag : option string) (s : string) : string :=
  match s, tag with
  | EmptyString, None => ""
  | EmptyString, Some inner => "<" +:+ inner
  | String c s', None =>
      if Ascii.eqb c "<" then reserialize_from (Some "") s'
      else String c (reserialize_from None s')
  | String c s', Some inner =>
      if Ascii.eqb c ">" then write_tag inner +:+ reserialize_from None s'
      else reserialize_from (Some (inner +:+ String c "")) s'
  end.

Definition reserialize (s : string) : string := reserialize_from None s.

End HTMLRef.

(** ** Sample pages, to run the script on *)

Module Sample.

(** A loaded page: the text input holds HELLO, the preview shows a
    rendering, no timer is pending and nothing was sent. *)
Definition page : World :=
  mkWorld
    (Str "s3cr3t") Undefined EUnset None
    true false HTMLRef.reserialize
    {[ "text-input" := mkElement "" "HELLO";
       "lcd-screenshot-content" := mkElement "<svg>X</svg>" "" ]}
    [] 0 1%positive [] [] [] [] [] [].

(** The same page without the preview container. *)
Definition page_without_preview : World :=
  mkWorld
    (Str "s3cr3t") Undefined EUnset None
    true false HTMLRef.reserialize
    {[ "text-input" := mkElement "" "HELLO" ]}
    [] 0 1%positive [] [] [] [] [] [].

(** A page in a browser that can make no request. *)
Definition page_without_transport : World :=
  mkWorld
    (Str "s3cr3t") Undefined EUnset None
    false false HTMLRef.reserialize
    {[ "text-input" := mkElement "" "HELLO";
       "lcd-screenshot-content" := mkElement "<svg>X</svg>" "" ]}
    [] 0 1%positive [] [] [] [] [] [].

(** A page whose script holds an object it is about to pass to [doAjax]. *)
Definition page_with_object : World :=
  set_heap [[("svg-data", Str "<svg>X</svg>")]] page.

(** The body of a successful refresh response. *)
Definition refresh_response : string :=
  "{" +:+ quote "result" +:+ ": " +:+ quote "<svg>HELLO</svg>" +:+ "}".

End Sample.

(** ** Vocabulary of the statements *)

(** The properties of the body a caller passes to [doAjax]: those of the
    object at the address given, none when the argument is left out. *)
Definition caller_body (data : option nat) (st : World) : list (string * val) :=
  match data with
  | Some o => default [] (w_heap st !! o)
  | None => []
  end.

(** The address given, if any, holds an object. *)
Definition valid_data (data : option nat) (st : World) : Prop :=
  match data with
  | Some o => is_Some (w_heap st !! o)
  | None => True
  end.

(** The objects after [doAjax] has stored the token: in the caller's
    object if there is one, else in a new object. *)
Definition merged_heap (data : option nat) (st : World) : list (list (string * val)) :=
  match data with
  | Some o => alter (set_prop "token" (w_token st)) o (w_heap st)
  | None => w_heap st ++ [[("token", w_token st)]]
  end.

(** The two configuration errors of [doAjax]: a blank URL, a host without
    a transport object. *)
Definition blank_url (url : option string) : Prop := url = None \/ url = Some "".

Definition has_transport (st : World) : bool :=
  w_XMLHttpRequest st || w_ActiveXObject st.

Definition no_transport (st : World) : Prop := has_transport st = false.

(** The members [JSON.stringify] writes for an object, in order: one per
    property whose value serializes. *)
Definition serialized_members (fs : list (string * val)) : list string :=
  omap (fun kv => match JSON_stringify (snd kv) with
                  | Some s => Some (quote (fst kv) +:+ ":" +:+ s)
                  | None => None
                  end) fs.

Definition content_type_json : list (string * string) :=
  [("Content-Type", "application/json")].

(** What every call of [doAjax] does first: [async] is set and the token
    stored. *)
Definition after_preamble (data : option nat) (st : World) : World :=
  set_heap (merged_heap data st) (set_async (Bool true) st).

(** The request a call of [doAjax] sends, if it sends one. *)
Definition request_sent (url method : option string)
    (responseHandler : option callback) (data : option nat) (st : World) : request :=
  mkRequest (or_str method "GET") (or_str url "") (Bool true)
    (if String.eqb (or_str method "GET") "POST" then content_type_json else [])
    responseHandler
    (JSON_stringify (Obj (set_prop "token" (w_token st) (caller_body data st)))).

(** The request the timeout function of [refreshLCD] sends when the text
    input holds [v]. *)
Definition refresh_request (token : val) (v : string) : request :=
  mkRequest "POST" "/refresh/lcd" (Bool true) content_type_json
    (Some cb_refreshLCDHandler)
    (JSON_stringify
       (Obj [("input-data", Arr (Str <$> split_lines v)); ("token", token)])).

(** The text of the last event of a burst that opens with the text [v0]. *)
Definition last_text (v0 : string) (evs : list (nat * string)) : string :=
  List.last (snd <$> evs) v0.

(** The state right after an input-change event, seen from the state [st0]
    before the burst: one timeout is pending, a full quiet period away, and
    [refreshLCDTimer] holds its handle; the text input holds [v]; nothing
    was sent. *)
Record armed (st0 st : World) (v : string) : Prop := mkArmed {
  armed_timer :
    exists h, w_refreshLCDTimer st = Some h /\ w_timers st = [(h, w_now st + 500)];
  armed_input :
    exists el, w_dom st !! "text-input" = Some el /\ value el = v;
  armed_token : w_token st = w_token st0;
  armed_requests : w_requests st = w_requests st0;
  armed_transport : has_transport st = has_transport st0
}.

(** The debounce told without the script, for any schedule: the texts
    sent.  [pending] is the text that awaits its quiet period with the time
    still to wait.  An input-change event makes its text pending for 500 ms
    in place of any other; waiting counts the time down; when the host runs
    the timeouts, a pending text whose time is up is sent and nothing is
    pending any more. *)
Fixpoint debounced (pending : option (string * nat)) (sch : list host_step)
  : list string :=
  match sch with
  | [] => []
  | hs_input v :: sch' => debounced (Some (v, 500)) sch'
  | hs_wait ms :: sch' =>
      debounced (match pending with
                 | Some (v, togo) => Some (v, togo - ms)
                 | None => None
                 end) sch'
  | hs_timeouts :: sch' =>
      match pending with
      | Some (v, 0) => v :: debounced None sch'
      | _ => debounced pending sch'
      end
  end.

(** The time that passes in a stretch of a schedule, and whether the
    stretch is free of input-change events. *)
Definition time_of (hs : host_step) : nat :=
  match hs with hs_wait ms => ms | _ => 0 end.

Definition total_wait (sch : list host_step) : nat := list_sum (time_of <$> sch).

Definition no_input (hs : host_step) : bool :=
  match hs with hs_input _ => false | _ => true end.

(** The state of the page that goes with [pending]: the text input is
    there and holds the pending text, and the pending timeout, if any, is
    the one [refreshLCDTimer] names, due when the time still to wait is
    over. *)
Definition awaiting (st : World) (pending : option (string * nat)) : Prop :=
  exists el,
    w_dom st !! "text-input" = Some el /\
    match pending with
    | None => w_timers st = []
    | Some (v, togo) =>
        value el = v /\
        exists h due,
          w_refreshLCDTimer st = Some h /\
          w_timers st = [(h, due)] /\
          togo = due - w_now st
    end.

(** The entry [getMethods] gives a property, if it gives one: none when
    the first read is not a function, [inaccessible] when a read or
    [toString()] throws, else what [toString()] returns. *)
Definition listing (p : property) : option string :=
  match first_read p with
  | Throw _ => Some (prop_id p +:+ ": inaccessible")
  | Ret r1 =>
      if is_function r1 then
        Some (prop_id p +:+ ": " +:+
              match second_read p with
              | Ret r2 =>
                  match toString_result r2 with
                  | Ret src => src
                  | Throw _ => "inaccessible"
                  end
              | Throw _ => "inaccessible"
              end)
      else None
  end.

(** At most one timeout is pending, and [refreshLCDTimer] names it. *)
Definition at_most_one_pending (st : World) : Prop :=
  w_timers st = [] \/
  exists h due, w_refreshLCDTimer st = Some h /\ w_timers st = [(h, due)].

(** The three requests the script makes, each with its callback. *)
Definition script_request (r : request) : bool :=
  String.eqb (req_method r) "POST" &&
  bool_decide (req_headers r = content_type_json) &&
  match req_async r with Bool true => true | _ => false end &&
  match req_onreadystatechange r with
  | None => String.eqb (req_url r) "/init"
  | Some cb_refreshLCDHandler => String.eqb (req_url r) "/refresh/lcd"
  | Some cb_saveScreenshot => String.eqb (req_url r) "/save/screenshot"
  end.

(** [st'] is reached from [st] by code that leaves the timers alone and
    sends nothing but requests of the script. *)
Definition extends (st st' : World) : Prop :=
  w_timers st' = w_timers st /\
  w_refreshLCDTimer st' = w_refreshLCDTimer st /\
  w_token st' = w_token st /\
  has_transport st' = has_transport st /\
  exists rs,
    w_requests st' = w_requests st ++ rs /\
    Forall (fun r => script_request r = true) rs.

(** What [response.result] gives when it does not throw. *)
Definition result_of (response : val) : val :=
  match response with
  | Obj fs => default Undefined (lookup_prop "result" fs)
  | _ => Undefined
  end.

(** The document after the refresh callback has run on a report, as a
    function of the report and of the document before. *)
Definition refreshed_dom (JSON_parse : string -> outcome val)
    (markup : string -> string) (this : xhr)
    (dom : gmap string element) : gmap string element :=
  if not_done_ok this then dom
  else if truthy_str (responseText this) then
    match JSON_parse (responseText this) with
    | Ret Undefined | Ret Null | Throw _ => dom
    | Ret response =>
        alter (fun el => mkElement (markup (DOMString (result_of response))) (value el))
          "lcd-screenshot-content" dom
    end
  else dom.

(** The number of line feeds in a text. *)
Fixpoint count_LF (s : string) : nat :=
  match s with
  | EmptyString => 0
  | String c s' => (if Ascii.eqb c LF then 1 else 0) + count_LF s'
  end.

Fixpoint has_LF (s : string) : bool :=
  match s with
  | EmptyString => false
  | String c s' => Ascii.eqb c LF || has_LF s'
  end.

(** ** Running the script symbolically *)

Ltac run_script :=
  cbv [mbind M_bind mret M_ret modify get throw alert console_error
       getElementById read_element write_innerHTML setTimeout clearTimeout
       new_object write_property stringify_object read_property xhr_send
       getHttpRequestObject call_JSON_parse];
  cbn [fst snd w_token w_async w_lcdContentElement w_refreshLCDTimer
       w_XMLHttpRequest w_ActiveXObject w_markup w_dom w_heap w_now w_next_timer
       w_timers w_requests w_alerts w_console w_parsed w_uncaught
       set_async set_lcdContentElement set_refreshLCDTimer set_dom set_heap
       set_now set_next_timer set_timers set_requests set_alerts set_console
       set_parsed set_uncaught].

(** ** Properties of the value operations *)

Lemma lookup_set_prop_eq (k : string) (v : val) (fs : list (string * val)) :
  lookup_prop k (set_prop k v fs) = Some v.
Proof.
  induction fs as [|[k' v'] fs IH]; cbn.
  - now rewrite String.eqb_refl.
  - destruct (String.eqb k k') eqn:E; cbn; rewrite E; [reflexivity | exact IH].
Qed.

Lemma lookup_set_prop_ne (k k0 : string) (v : val) (fs : list (string * val)) :
  k0 <> k -> lookup_prop k0 (set_prop k v fs) = lookup_prop k0 fs.
Proof.
  intros Hne. induction fs as [|[k' v'] fs IH]; cbn.
  - apply String.eqb_neq in Hne. now rewrite Hne.
  - destruct (String.eqb k k') eqn:E; cbn.
    + apply String.eqb_eq in E. subst k'.
      apply String.eqb_neq in Hne. now rewrite Hne.
    + now rewrite IH.
Qed.

Lemma lookup_prop_elem_of (k : string) (v : val) (fs : list (string * val)) :
  lookup_prop k fs = Some v -> (k, v) ∈ fs.
Proof.
  induction fs as [|[k' v'] fs IH]; cbn; [discriminate|].
  destruct (String.eqb k k') eqn:E.
  - apply String.eqb_eq in E. intros [= ->]. subst. apply list_elem_of_here.
  - intros H. apply list_elem_of_further, IH, H.
Qed.

Lemma JSON_stringify_Obj (fs : list (string * val)) :
  JSON_stringify (Obj fs) = Some ("{" +:+ join "," (serialized_members fs) +:+ "}").
Proof. reflexivity. Qed.

(** A property whose value serializes is among the members written. *)
Lemma serialized_member (k : string) (v : val) (s : string)
    (fs : list (string * val)) :
  lookup_prop k fs = Some v -> JSON_stringify v = Some s ->
  In (quote k +:+ ":" +:+ s) (serialized_members fs).
Proof.
  intros Hk Hs. apply list_elem_of_In, list_elem_of_omap.
  exists (k, v). split; [now apply lookup_prop_elem_of|].
  cbn [fst snd]. now rewrite Hs.
Qed.

Lemma or_str_blank (url : option string) :
  or_str url "" = "" <-> url = None \/ url = Some "".
Proof.
  destruct url as [[|c s]|]; cbn; split; intros H; auto.
  - discriminate.
  - destruct H as [H|H]; discriminate.
Qed.

Lemma not_done_ok_false (this : xhr) :
  not_done_ok this = false <-> readyState this = 4 /\ status this = 200.
Proof.
  unfold not_done_ok.
  rewrite orb_false_iff, !negb_false_iff, !Nat.eqb_eq. tauto.
Qed.

Lemma not_done_ok_true (this : xhr) :
  not_done_ok this = true <-> ~ (readyState this = 4 /\ status this = 200).
Proof.
  rewrite <- not_done_ok_false. destruct (not_done_ok this); intuition congruence.
Qed.

(** Writing a property of the object just made. *)
Lemma alter_last (f : list (string * val) -> list (string * val))
    (heap : list (list (string * val))) (fs : list (string * val)) :
  alter f (length heap) (heap ++ [fs]) = heap ++ [f fs].
Proof.
  induction heap as [|o heap IH]; cbn; [reflexivity | now rewrite IH].
Qed.

(** Writing a property of an object that is there. *)
Lemma alter_at (f : list (string * val) -> list (string * val))
    (heap : list (list (string * val))) (o : nat) (fs : list (string * val)) :
  heap !! o = Some fs -> alter f o heap = <[o := f fs]> heap.
Proof.
  revert o. induction heap as [|x heap IH]; intros [|o] H; cbn in *; try discriminate.
  - now inversion H.
  - now rewrite (IH o H).
Qed.

(** ** The completion callbacks *)

Section Callbacks.

Variable JSON_parse : string -> outcome val.

(** The save callback on a finished, successful request. *)
Lemma saveScreenshot_handler_done_ok (this : xhr) (st : World) :
  readyState this = 4 -> status this = 200 ->
  saveScreenshot_handler this st
  = (Ret tt, set_alerts (w_alerts st ++ ["Screenshot saved successfully!"]) st).
Proof.
  intros H1 H2. unfold saveScreenshot_handler.
  now rewrite (proj2 (not_done_ok_false this) (conj H1 H2)).
Qed.

(** The save callback in every other state, finished or not: an error
    alert with the status code and the status text. *)
Lemma saveScreenshot_handler_otherwise (this : xhr) (st : World) :
  ~ (readyState this = 4 /\ status this = 200) ->
  saveScreenshot_handler this st
  = (Ret tt,
     set_alerts (w_alerts st ++
                 ["Error saving screenshot " +:+ dec_nat (status this) +:+ ": "
                  +:+ statusText this]) st).
Proof.
  intros H. unfold saveScreenshot_handler.
  now rewrite (proj2 (not_done_ok_true this) H).
Qed.

(** X11: the refresh callback when the preview container is missing: it
    logs, leaves the document alone and returns, provided the response
    parsed. *)
Lemma refreshLCDHandler_missing_target (this : xhr) (st : World) (response : val) :
  readyState this = 4 -> status this = 200 ->
  truthy_str (responseText this) = true ->
  JSON_parse (responseText this) = Ret response ->
  w_dom st !! "lcd-screenshot-content" = None ->
  refreshLCDHandler JSON_parse this st
  = (Ret tt,
     set_console
       (w_console st ++ ["Could not find element with id 'lcd-screenshot-content'"])
       (set_lcdContentElement ENull
          (set_parsed (w_parsed st ++ [responseText this]) st))).
Proof.
  intros H1 H2 H3 H4 H5. unfold refreshLCDHandler.
  rewrite (proj2 (not_done_ok_false this) (conj H1 H2)).
  rewrite H3.
  run_script. rewrite H4. run_script. rewrite H5. reflexivity.
Qed.

(** [saveScreenshot] when the preview container is missing: reading
    [innerHTML] of [null] throws before [doAjax] is entered; nothing is
    logged and nothing is sent. *)
Lemma saveScreenshot_missing_target (st : World) :
  w_dom st !! "lcd-screenshot-content" = None ->
  saveScreenshot st = (Throw (TypeError "cannot read innerHTML of null"), st).
Proof.
  intros H. unfold saveScreenshot. run_script. rewrite H. reflexivity.
Qed.

(** C6: the refresh completion handler does nothing observable unless the
    transport is in the terminal ready state (4) with status 200: in every
    other state it returns and the whole state, document and trace
    included, is as it was. *)
Theorem refreshLCDHandler_silent_unless_done_ok (this : xhr) (st : World) :
  ~ (readyState this = 4 /\ status this = 200) ->
  refreshLCDHandler JSON_parse this st = (Ret tt, st).
Proof.
  intros H. unfold refreshLCDHandler.
  now rewrite (proj2 (not_done_ok_true this) H).
Qed.

(** C10: in the terminal ready state with status 200 but an empty response
    text, the refresh completion handler returns with the state as it was:
    no text was handed to [JSON.parse] ([w_parsed] is unchanged) and the
    preview container is untouched. *)
Theorem refreshLCDHandler_empty_response (this : xhr) (st : World) :
  readyState this = 4 -> status this = 200 -> responseText this = "" ->
  refreshLCDHandler JSON_parse this st = (Ret tt, st).
Proof.
  intros H1 H2 H3. unfold refreshLCDHandler.
  rewrite (proj2 (not_done_ok_false this) (conj H1 H2)), H3.
  reflexivity.
Qed.

(** C7, as amended: round trip.  When the response text of a finished,
    successful refresh is not empty and parses to an object whose [result]
    is the string [R], and the page has the preview container, the handler
    returns normally having assigned [R], as it is, to the container's
    [innerHTML]: the content read back is then [R] as the host reads markup
    back, and so exactly [R] whenever the host reads [R] back unchanged. *)
Theorem refreshLCDHandler_round_trip (this : xhr) (st : World)
    (fs : list (string * val)) (R : string) (el : element) :
  readyState this = 4 -> status this = 200 ->
  truthy_str (responseText this) = true ->
  JSON_parse (responseText this) = Ret (Obj fs) ->
  lookup_prop "result" fs = Some (Str R) ->
  w_dom st !! "lcd-screenshot-content" = Some el ->
  exists st',
    refreshLCDHandler JSON_parse this st = (Ret tt, st') /\
    innerHTML <$> w_dom st' !! "lcd-screenshot-content" = Some (w_markup st R) /\
    (w_markup st R = R ->
     innerHTML <$> w_dom st' !! "lcd-screenshot-content" = Some R).
Proof.
  intros H1 H2 H3 H4 H5 H6. unfold refreshLCDHandler.
  rewrite (proj2 (not_done_ok_false this) (conj H1 H2)).
  rewrite H3.
  run_script. rewrite H4. run_script. rewrite H6. run_script. rewrite H5.
  cbn [default from_option id DOMString ToString].
  eexists. split; [reflexivity|].
  run_script. rewrite lookup_alter_eq, H6. cbn [fmap option_fmap option_map].
  split; [reflexivity|]. now intros ->.
Qed.

End Callbacks.

(** ** The transport *)

Section Transport.

Variables (url method : option string) (responseHandler : option callback)
          (data : option nat) (st : World).

Local Abbreviation after_preamble := (after_preamble data st).
Local Abbreviation request_sent := (request_sent url method responseHandler data st).

Lemma doAjax_blank :
  blank_url url ->
  doAjax url method responseHandler data st
  = (Ret (Bool false),
     set_alerts (w_alerts st ++ ["URL can not be null/blank"]) after_preamble).
Proof.
  intros H. apply or_str_blank in H.
  unfold doAjax, after_preamble, merged_heap. rewrite H. cbn [String.eqb].
  destruct data; run_script; [reflexivity|].
  now rewrite alter_last.
Qed.

Lemma doAjax_no_transport :
  ~ blank_url url -> no_transport st ->
  doAjax url method responseHandler data st
  = (Ret Undefined,
     set_alerts (w_alerts st ++ ["Please use browser with Ajax support.!"])
       after_preamble).
Proof.
  intros H Hn. apply orb_false_iff in Hn as [H1 H2]. unfold blank_url in H.
  rewrite <- or_str_blank in H. apply String.eqb_neq in H.
  unfold doAjax, after_preamble, merged_heap. rewrite H.
  destruct data; run_script; rewrite H1, H2; run_script; [reflexivity|].
  now rewrite alter_last.
Qed.

Lemma doAjax_sends :
  ~ blank_url url -> has_transport st = true -> valid_data data st ->
  doAjax url method responseHandler data st
  = (Ret Undefined,
     set_requests (w_requests st ++ [request_sent]) after_preamble).
Proof.
  intros H Ht Hv. unfold blank_url in H.
  rewrite <- or_str_blank in H. apply String.eqb_neq in H.
  assert (Hx : (if w_XMLHttpRequest st then true else w_ActiveXObject st) = true).
  { unfold has_transport in Ht.
    now destruct (w_XMLHttpRequest st), (w_ActiveXObject st). }
  unfold doAjax, after_preamble, merged_heap, request_sent, caller_body.
  rewrite H. destruct data as [o|]; run_script.
  - destruct Hv as [fs Hfs]. rewrite Hfs, (alter_at _ _ _ _ Hfs). cbn [default].
    destruct (w_XMLHttpRequest st), (w_ActiveXObject st); try discriminate Hx;
      run_script;
      (rewrite list_lookup_insert_eq by (now apply lookup_lt_Some in Hfs));
      cbn [default];
      destruct (String.eqb (or_str method "GET") "POST"); reflexivity.
  - rewrite alter_last. cbn [default set_prop].
    destruct (w_XMLHttpRequest st), (w_ActiveXObject st); try discriminate Hx;
      run_script;
      (rewrite list_lookup_middle by reflexivity);
      cbn [default];
      destruct (String.eqb (or_str method "GET") "POST"); reflexivity.
Qed.

End Transport.

(** C3: a call of [doAjax] with a blank URL ([undefined], [null] or the
    empty string) sends no request, shows the alert and returns [false]. *)
Theorem doAjax_blank_url_rejected (url method : option string)
    (responseHandler : option callback) (data : option nat) (st : World) :
  blank_url url ->
  exists st',
    doAjax url method responseHandler data st = (Ret (Bool false), st') /\
    w_requests st' = w_requests st /\
    w_alerts st' = w_alerts st ++ ["URL can not be null/blank"].
Proof.
  intros H. eexists. split; [now apply doAjax_blank|]. split; reflexivity.
Qed.

(** Only the empty string is blank: a URL of spaces goes to the transport. *)
Example doAjax_space_url_is_sent :
  w_requests (snd (doAjax (Some " ") (Some "POST") None None Sample.page))
  = [mkRequest "POST" " " (Bool true) content_type_json None
       (Some ("{" +:+ quote "token" +:+ ":" +:+ quote "s3cr3t" +:+ "}"))].
Proof. reflexivity. Qed.

(** C4, as amended: a call of [doAjax] that ends in a configuration error
    (blank URL, or no transport object) sends nothing and leaves the
    document, the timers and the trace other than the alert as they were;
    what it does change is the global [async], set to [true], and the
    objects: the token is stored in the caller's data object, all its other
    properties kept, or in a fresh object when the caller passed none. *)
Theorem doAjax_abort_effects (url method : option string)
    (responseHandler : option callback) (data : option nat) (st : World) :
  blank_url url \/ no_transport st ->
  (exists v msg,
     doAjax url method responseHandler data st
     = (Ret v,
        set_alerts (w_alerts st ++ [msg])
          (set_heap (merged_heap data st) (set_async (Bool true) st)))) /\
  (forall o fs, data = Some o -> w_heap st !! o = Some fs ->
     merged_heap data st = <[o := set_prop "token" (w_token st) fs]> (w_heap st)).
Proof.
  intros H. split.
  - destruct (String.eqb (or_str url "") "") eqn:E.
    + apply String.eqb_eq, or_str_blank in E.
      exists (Bool false), "URL can not be null/blank". now apply doAjax_blank.
    + apply String.eqb_neq in E. rewrite or_str_blank in E.
      destruct H as [H|H]; [contradiction|].
      exists Undefined, "Please use browser with Ajax support.!".
      now apply doAjax_no_transport.
  - intros o fs -> Ho. cbn. now apply alter_at.
Qed.

(** C8: when a call of [doAjax] sends a request, it sends exactly one, and
    its body is the serialization of the caller's body with the token, as
    [window.token] holds it at the call, stored under [token] and every
    other property kept, so that the text sent has the token among its
    members whenever the token serializes at all; the method is the one
    given, GET when it is left out; and a POST carries the JSON content
    type header. *)
Theorem doAjax_request_carries_token (url method : option string)
    (responseHandler : option callback) (data : option nat) (st : World) :
  valid_data data st ->
  w_requests (snd (doAjax url method responseHandler data st)) <> w_requests st ->
  exists r merged,
    w_requests (snd (doAjax url method responseHandler data st))
    = w_requests st ++ [r] /\
    req_body r = JSON_stringify (Obj merged) /\
    lookup_prop "token" merged = Some (w_token st) /\
    (forall k, k <> "token" ->
       lookup_prop k merged = lookup_prop k (caller_body data st)) /\
    (forall s, JSON_stringify (w_token st) = Some s ->
       req_body r = Some ("{" +:+ join "," (serialized_members merged) +:+ "}") /\
       In (quote "token" +:+ ":" +:+ s) (serialized_members merged)) /\
    req_method r = or_str method "GET" /\
    (method = None -> req_method r = "GET") /\
    (req_method r = "POST" -> req_headers r = content_type_json).
Proof.
  intros Hv Hsent.
  destruct (String.eqb (or_str url "") "") eqn:E.
  { apply String.eqb_eq, or_str_blank in E.
    rewrite (doAjax_blank _ _ _ _ _ E) in Hsent. now contradiction Hsent. }
  apply String.eqb_neq in E. rewrite or_str_blank in E.
  destruct (has_transport st) eqn:T.
  - rewrite (doAjax_sends _ _ _ _ _ E T Hv). cbn [snd].
    exists (request_sent url method responseHandler data st),
           (set_prop "token" (w_token st) (caller_body data st)).
    repeat split.
    + apply lookup_set_prop_eq.
    + intros k Hk. now apply lookup_set_prop_ne.
    + apply (serialized_member _ (w_token st)); [apply lookup_set_prop_eq | assumption].
    + now intros ->.
    + cbn [request_sent req_method req_headers]. now intros ->.
  - rewrite (doAjax_no_transport _ _ _ _ _ E T) in Hsent. now contradiction Hsent.
Qed.

(** What [saveScreenshot] does on a page with the preview container, in a
    browser with a transport object. *)
Lemma saveScreenshot_sends (st : World) (el : element) :
  w_dom st !! "lcd-screenshot-content" = Some el ->
  has_transport st = true ->
  saveScreenshot st
  = (Ret Undefined,
     set_requests
       (w_requests st ++
        [mkRequest "POST" "/save/screenshot" (Bool true) content_type_json
           (Some cb_saveScreenshot)
           (JSON_stringify
              (Obj [("svg-data", Str (innerHTML el)); ("token", w_token st)]))])
       (set_heap
          (w_heap st ++ [[("svg-data", Str (innerHTML el)); ("token", w_token st)]])
          (set_async (Bool true) st))).
Proof.
  intros Hel Ht. unfold saveScreenshot. run_script. rewrite Hel. run_script.
  rewrite doAjax_sends.
  - unfold request_sent, after_preamble, merged_heap, caller_body. run_script.
    rewrite alter_last, list_lookup_middle, Hel by reflexivity. reflexivity.
  - intros [H|H]; discriminate.
  - exact Ht.
  - cbn. rewrite list_lookup_middle by reflexivity. now eexists.
Qed.

(** C9: on a page with the preview container (and a transport object),
    [saveScreenshot] sends one POST to [/save/screenshot] whose body is the
    serialization of an object with [svg-data], the container's [innerHTML]
    at that moment, and [token]; the text input has no part in it. *)
Theorem saveScreenshot_request (st : World) (el : element) :
  w_dom st !! "lcd-screenshot-content" = Some el ->
  has_transport st = true ->
  (exists st',
     saveScreenshot st = (Ret Undefined, st') /\
     w_requests st'
     = w_requests st ++
       [mkRequest "POST" "/save/screenshot" (Bool true) content_type_json
          (Some cb_saveScreenshot)
          (JSON_stringify
             (Obj [("svg-data", Str (innerHTML el)); ("token", w_token st)]))]) /\
  (forall v,
     w_requests (snd (saveScreenshot (type_text v st)))
     = w_requests (snd (saveScreenshot st))).
Proof.
  intros Hel Ht. split.
  - rewrite (saveScreenshot_sends st el Hel Ht).
    eexists. split; reflexivity.
  - intros v.
    rewrite (saveScreenshot_sends st el Hel Ht).
    rewrite (saveScreenshot_sends (type_text v st) el).
    + reflexivity.
    + unfold type_text. run_script. now rewrite lookup_alter_ne.
    + exact Ht.
Qed.

(** ** The debounced refresh *)

Lemma filter_none_due (now : nat) (ts : list (positive * nat)) :
  Forall (fun t => now < snd t) ts ->
  List.filter (is_due now) ts = [] /\
  List.filter (fun t => negb (is_due now t)) ts = ts.
Proof.
  induction 1 as [|t ts Ht _ [IH1 IH2]]; cbn [List.filter]; [easy|].
  assert (E : is_due now t = false) by (now apply Nat.leb_gt).
  rewrite E. cbn [negb]. now rewrite IH1, IH2.
Qed.

(** A millisecond in which no timeout is due only moves the clock. *)
Lemma tick_idle (st : World) :
  Forall (fun t => S (w_now st) < snd t) (w_timers st) ->
  tick st = set_now (S (w_now st)) st.
Proof.
  intros H. unfold tick. destruct (filter_none_due _ _ H) as [-> ->].
  cbn [fold_left]. now destruct st.
Qed.

Lemma advance_idle (ms : nat) (st : World) :
  Forall (fun t => w_now st + ms < snd t) (w_timers st) ->
  advance ms st = set_now (w_now st + ms) st.
Proof.
  revert st. induction ms as [|ms IH]; intros st H; cbn [advance].
  - rewrite Nat.add_0_r. now destruct st.
  - rewrite tick_idle.
    + rewrite IH; cbn.
      * now rewrite Nat.add_succ_r.
      * eapply Forall_impl; [exact H|]. cbn. intros; lia.
    + eapply Forall_impl; [exact H|]. cbn. intros; lia.
Qed.

Lemma advance_add (a b : nat) (st : World) :
  advance (a + b) st = advance b (advance a st).
Proof. revert st. induction a as [|a IH]; intros st; cbn; [reflexivity | apply IH]. Qed.

(** The millisecond in which the only pending timeout comes due: it leaves
    the pending list and its function runs. *)
Lemma tick_fire (st : World) (h : positive) :
  w_timers st = [(h, S (w_now st))] ->
  tick st = run_task refreshLCD_timeout (set_timers [] (set_now (S (w_now st)) st)).
Proof.
  intros H. unfold tick. rewrite H. cbn. unfold is_due. cbn [snd].
  now rewrite Nat.leb_refl.
Qed.

(** [refreshLCD] itself: any pending timeout it knows is cleared, a new one
    is set a quiet period ahead. *)
Lemma refreshLCD_eq (st : World) :
  refreshLCD st
  = (Ret tt,
     set_refreshLCDTimer (Some (w_next_timer st))
       (set_timers
          (match w_refreshLCDTimer st with
           | Some h => List.filter (fun t => negb (Pos.eqb (fst t) h)) (w_timers st)
           | None => w_timers st
           end ++ [(w_next_timer st, w_now st + 500)])
          (set_next_timer (Pos.succ (w_next_timer st)) st))).
Proof.
  unfold refreshLCD. run_script. destruct (w_refreshLCDTimer st); reflexivity.
Qed.

(** The timeout function on a page with the text input, in a browser with
    a transport object: one request, built from the text as it is now. *)
Lemma refreshLCD_timeout_sends (st : World) (el : element) :
  w_dom st !! "text-input" = Some el ->
  has_transport st = true ->
  exists st',
    refreshLCD_timeout st = (Ret Undefined, st') /\
    w_requests st' = w_requests st ++ [refresh_request (w_token st) (value el)] /\
    w_timers st' = w_timers st /\
    w_dom st' = w_dom st /\
    w_now st' = w_now st.
Proof.
  intros Hel Ht. unfold refreshLCD_timeout, getTextInputAsLines.
  run_script. rewrite Hel. run_script. rewrite Hel.
  rewrite doAjax_sends.
  - eexists. split; [reflexivity|].
    unfold request_sent, after_preamble, refresh_request, caller_body. run_script.
    rewrite list_lookup_middle by reflexivity. repeat split.
  - intros [H|H]; discriminate.
  - exact Ht.
  - cbn. rewrite list_lookup_middle by reflexivity. now eexists.
Qed.

Lemma last_cons {A : Type} (a d : A) (l : list A) :
  List.last (a :: l) d = List.last l a.
Proof.
  revert a d. induction l as [|b l IH]; intros a d; [reflexivity|].
  change (List.last (b :: l) d = List.last (b :: l) a). now rewrite !IH.
Qed.

(** An input-change event arms the timer, whether or not a timeout it
    knows of was pending. *)
Lemma input_event_arms (st0 st : World) (v : string) (el : element) :
  w_timers st = [] \/
  (exists h due, w_refreshLCDTimer st = Some h /\ w_timers st = [(h, due)]) ->
  w_dom st !! "text-input" = Some el ->
  w_token st = w_token st0 ->
  w_requests st = w_requests st0 ->
  has_transport st = has_transport st0 ->
  armed st0 (input_event v st) v.
Proof.
  intros Htimers Hel Htok Hreq Htr.
  unfold input_event, run_task. rewrite refreshLCD_eq.
  unfold type_text. run_script. split; run_script; try assumption.
  - eexists. split; [reflexivity|]. f_equal.
    destruct Htimers as [->|(h & due & -> & ->)].
    + now destruct (w_refreshLCDTimer st).
    + cbn. now rewrite Pos.eqb_refl.
  - eexists. split; [rewrite lookup_alter_eq, Hel; reflexivity | reflexivity].
Qed.

(** Less than a quiet period after an event, the timer is still pending and
    nothing else has happened. *)
Lemma armed_wait (st0 st : World) (v : string) (gap : nat) :
  armed st0 st v -> gap < 500 ->
  advance gap st = set_now (w_now st + gap) st.
Proof.
  intros [(h & _ & Ht) _ _ _ _] Hgap. apply advance_idle. rewrite Ht.
  constructor; [cbn; lia | constructor].
Qed.

Lemma armed_event (st0 st : World) (v v' : string) (gap : nat) :
  armed st0 st v -> gap < 500 ->
  armed st0 (input_event v' (advance gap st)) v'.
Proof.
  intros Ha Hgap. rewrite (armed_wait _ _ _ _ Ha Hgap).
  destruct Ha as [(h & Hh & Ht) (el & Hel & _) Htok Hreq Htr].
  apply (input_event_arms _ _ _ el); try assumption.
  right. exists h, (w_now st + 500). now split.
Qed.

Lemma burst_armed (st0 : World) (evs : list (nat * string)) :
  forall (st : World) (v : string),
    armed st0 st v ->
    Forall (fun e => fst e < 500) evs ->
    armed st0 (burst evs st) (last_text v evs).
Proof.
  induction evs as [|[gap v'] evs IH]; intros st v Ha Hgaps; cbn [burst].
  - exact Ha.
  - inversion Hgaps as [|? ? Hgap Hrest]; subst.
    unfold last_text. cbn [fmap list_fmap snd]. rewrite last_cons.
    apply IH; [|exact Hrest]. now apply (armed_event _ _ v).
Qed.

(** Once the quiet period has passed, the armed timer has fired, once. *)
Lemma armed_fires (st0 st : World) (v : string) (d : nat) :
  armed st0 st v -> has_transport st0 = true -> 500 <= d ->
  w_requests (advance d st) = w_requests st0 ++ [refresh_request (w_token st0) v] /\
  value <$> w_dom (advance d st) !! "text-input" = Some v /\
  w_timers (advance d st) = [].
Proof.
  intros Ha Ht0 Hd.
  replace d with (499 + (1 + (d - 500))) by lia.
  rewrite advance_add, (armed_wait _ _ _ _ Ha) by lia.
  destruct Ha as [(h & Hh & Ht) (el & Hel & Hv) Htok Hreq Htr].
  rewrite advance_add. cbn [advance].
  set (st1 := set_now (w_now st + 499) st).
  rewrite (tick_fire st1 h) by (cbn; rewrite Ht; do 2 f_equal; lia).
  set (st2 := set_timers [] (set_now (S (w_now st1)) st1)).
  destruct (refreshLCD_timeout_sends st2 el)
    as (st' & Hrun & Hreq' & Htimers' & Hdom' & Hnow');
    [exact Hel | now rewrite <- Ht0, <- Htr |].
  unfold run_task. rewrite Hrun.
  rewrite advance_idle by (rewrite Htimers'; constructor).
  cbn [w_requests w_dom w_timers set_now]. rewrite Hreq', Hdom', Htimers'. cbn.
  rewrite Hreq, Htok, Hel. subst v. now cbn.
Qed.

(** C1: a burst of input-change events, each less than the quiet period
    of 500 ms after the one before, on a page with the text input and a
    transport object and with no timeout pending at its start: once 500 ms
    or more have passed since the last event, exactly one request has been
    sent, to [/refresh/lcd]; its [input-data] is the text input's value
    split into lines as read when the timeout fired, and that value is the
    one the last event of the burst left. *)
Theorem refreshLCD_debounce (st : World) (el : element) (v0 : string)
    (evs : list (nat * string)) (d : nat) :
  w_timers st = [] ->
  w_dom st !! "text-input" = Some el ->
  has_transport st = true ->
  Forall (fun e => fst e < 500) evs ->
  500 <= d ->
  let st' := advance d (burst evs (input_event v0 st)) in
  w_requests st'
  = w_requests st ++ [refresh_request (w_token st) (last_text v0 evs)] /\
  value <$> w_dom st' !! "text-input" = Some (last_text v0 evs).
Proof.
  intros Htimers Hel Ht Hgaps Hd st'.
  assert (Ha : armed st (burst evs (input_event v0 st)) (last_text v0 evs)).
  { apply burst_armed; [|exact Hgaps].
    apply (input_event_arms _ _ _ el); auto. }
  destruct (armed_fires _ _ _ d Ha Ht Hd) as (H1 & H2 & _). now split.
Qed.

(** An edit of the text without an event leaves the timer armed. *)
Lemma type_text_armed (st0 st : World) (v w : string) :
  armed st0 st v -> armed st0 (type_text w st) w.
Proof.
  intros [Ht (el & Hel & _) Htok Hreq Htr]. split; try assumption.
  exists (mkElement (innerHTML el) w). split; [|reflexivity].
  unfold type_text. run_script. now rewrite lookup_alter_eq, Hel.
Qed.

(** X12: the text is read when the timeout fires, not when it is set: an
    edit that reaches the input without an event, after the last event, is
    the one sent. *)
Lemma refreshLCD_reads_input_when_fired (st : World) (el : element)
    (v0 w : string) (evs : list (nat * string)) (d : nat) :
  w_timers st = [] ->
  w_dom st !! "text-input" = Some el ->
  has_transport st = true ->
  Forall (fun e => fst e < 500) evs ->
  500 <= d ->
  w_requests (advance d (type_text w (burst evs (input_event v0 st))))
  = w_requests st ++ [refresh_request (w_token st) w].
Proof.
  intros Htimers Hel Ht Hgaps Hd.
  assert (Ha : armed st (burst evs (input_event v0 st)) (last_text v0 evs)).
  { apply burst_armed; [|exact Hgaps].
    apply (input_event_arms _ _ _ el); auto. }
  apply (type_text_armed _ _ _ w) in Ha.
  now destruct (armed_fires _ _ _ d Ha Ht Hd) as (H1 & _).
Qed.

(** ** The script at work *)

(** Loading the page sends the token to [/init]. *)
Example main_sends_init :
  w_requests (run_task main Sample.page)
  = [mkRequest "POST" "/init" (Bool true) content_type_json None
       (Some ("{" +:+ quote "token" +:+ ":" +:+ quote "s3cr3t" +:+ "}"))].
Proof. vm_compute. reflexivity. Qed.

(** HELLO is typed; after the quiet period one request carries it; the
    response is shown in the preview. *)
Example refresh_scenario :
  let st1 := advance 500 (input_event "HELLO" Sample.page) in
  let this := mkXhr 4 200 "OK" Sample.refresh_response in
  w_requests st1
  = [mkRequest "POST" "/refresh/lcd" (Bool true) content_type_json
       (Some cb_refreshLCDHandler)
       (Some ("{" +:+ quote "input-data" +:+ ":[" +:+ quote "HELLO" +:+ "],"
              +:+ quote "token" +:+ ":" +:+ quote "s3cr3t" +:+ "}"))] /\
  match w_requests st1 !! 0 with
  | Some r =>
      innerHTML <$>
        w_dom (readystatechange JSONRef.JSON_parse r this st1)
          !! "lcd-screenshot-content"
      = Some "<svg>HELLO</svg>"
  | None => False
  end.
Proof. split; vm_compute; reflexivity. Qed.

(** Two events 100 ms apart give one request, with the second text. *)
Example two_events_collapse :
  w_requests (advance 500 (burst [(100, "HELLO")] (input_event "HELL" Sample.page)))
  = [refresh_request (Str "s3cr3t") "HELLO"].
Proof. vm_compute. reflexivity. Qed.

(** Two events a full quiet period apart give two requests. *)
Example two_events_apart :
  w_requests (advance 500 (burst [(500, "HELLO")] (input_event "HELL" Sample.page)))
  = [refresh_request (Str "s3cr3t") "HELL"; refresh_request (Str "s3cr3t") "HELLO"].
Proof. vm_compute. reflexivity. Qed.

(** The save callback on a failed request names the status. *)
Example save_failure_alert :
  w_alerts (snd (saveScreenshot_handler (mkXhr 4 500 "Server Error" "") Sample.page))
  = ["Error saving screenshot 500: Server Error"].
Proof. vm_compute. reflexivity. Qed.

(** A save that succeeds, as the transport reports it: headers received
    (2), loading (3), done (4).  The callback was installed for every such
    change and alerts an error on the first two. *)
Example save_success_alerts :
  let st1 := run_task saveScreenshot Sample.page in
  let report n st :=
    match w_requests st1 !! 0 with
    | Some r => readystatechange JSONRef.JSON_parse r (mkXhr n 200 "OK" "") st
    | None => st
    end in
  w_alerts (report 4 (report 3 (report 2 st1)))
  = ["Error saving screenshot 200: OK";
     "Error saving screenshot 200: OK";
     "Screenshot saved successfully!"].
Proof. vm_compute. reflexivity. Qed.

(** Responses are not matched to requests: a late response to an older
    request replaces what a newer one has shown. *)
Example stale_response_overwrites :
  let older := mkXhr 4 200 "OK" ("{" +:+ quote "result" +:+ ":" +:+ quote "<svg>A</svg>" +:+ "}") in
  let newer := mkXhr 4 200 "OK" ("{" +:+ quote "result" +:+ ":" +:+ quote "<svg>B</svg>" +:+ "}") in
  let st1 := run_task (refreshLCDHandler JSONRef.JSON_parse newer) Sample.page in
  let st2 := run_task (refreshLCDHandler JSONRef.JSON_parse older) st1 in
  innerHTML <$> w_dom st2 !! "lcd-screenshot-content" = Some "<svg>A</svg>".
Proof. vm_compute. reflexivity. Qed.

(** C2: the save callback, run when the transport has only received the
    headers of a successful response (ready state 2, status 200), shows an
    error alert: readiness changes before the terminal one are not silent. *)
Theorem saveScreenshot_handler_alerts_before_done :
  saveScreenshot_handler (mkXhr 2 200 "OK" "") Sample.page
  = (Ret tt, set_alerts ["Error saving screenshot 200: OK"] Sample.page).
Proof. reflexivity. Qed.

(** C5: on a page without the preview container [saveScreenshot] throws a
    TypeError; it logs nothing and the state is as it was. *)
Theorem saveScreenshot_throws_without_preview :
  saveScreenshot Sample.page_without_preview
  = (Throw (TypeError "cannot read innerHTML of null"), Sample.page_without_preview).
Proof. reflexivity. Qed.

(** C4 as stated fails: a call with a blank URL returns [false] and sends
    nothing, yet the caller's data object has gained the token. *)
Lemma doAjax_abort_writes_caller_object :
  let st := Sample.page_with_object in
  let r := doAjax (Some "") (Some "POST") None (Some 0) st in
  fst r = Ret (Bool false) /\
  w_requests (snd r) = w_requests st /\
  w_heap st !! 0 = Some [("svg-data", Str "<svg>X</svg>")] /\
  w_heap (snd r) !! 0
  = Some [("svg-data", Str "<svg>X</svg>"); ("token", Str "s3cr3t")] /\
  w_heap (snd r) !! 0 <> w_heap st !! 0.
Proof. repeat split. vm_compute. discriminate. Qed.

(** C7 as stated fails: the result [<svg><rect/></svg>] of a successful
    response is not what the preview container holds afterwards; it is read
    back with the self-closing tag written out. *)
Lemma refreshLCDHandler_markup_read_back :
  let R := "<svg><rect/></svg>" in
  let this := mkXhr 4 200 "OK" ("{" +:+ quote "result" +:+ ":" +:+ quote R +:+ "}") in
  let r := refreshLCDHandler JSONRef.JSON_parse this Sample.page in
  JSONRef.JSON_parse (responseText this) = Ret (Obj [("result", Str R)]) /\
  fst r = Ret tt /\
  innerHTML <$> w_dom (snd r) !! "lcd-screenshot-content"
  = Some "<svg><rect></rect></svg>" /\
  innerHTML <$> w_dom (snd r) !! "lcd-screenshot-content" <> Some R.
Proof. repeat split. vm_compute. discriminate. Qed.

(** ** Instances of the theorems *)

Lemma refreshLCD_debounce_witness :
  w_timers Sample.page = [] /\
  w_dom Sample.page !! "text-input" = Some (mkElement "" "HELLO") /\
  has_transport Sample.page = true /\
  Forall (fun e => fst e < 500) [(120, "HE"); (499, "HEL" +:+ String LF "LO")] /\
  500 <= 500 /\
  (let st' :=
     advance 500
       (burst [(120, "HE"); (499, "HEL" +:+ String LF "LO")]
          (input_event "H" Sample.page)) in
   w_requests st'
   = w_requests Sample.page ++
     [refresh_request (w_token Sample.page)
        (last_text "H" [(120, "HE"); (499, "HEL" +:+ String LF "LO")])] /\
   value <$> w_dom st' !! "text-input"
   = Some (last_text "H" [(120, "HE"); (499, "HEL" +:+ String LF "LO")])).
Proof.
  assert (Hgaps : Forall (fun e : nat * string => fst e < 500)
                    [(120, "HE"); (499, "HEL" +:+ String LF "LO")])
    by (repeat constructor; cbn; lia).
  assert (Hel : w_dom Sample.page !! "text-input" = Some (mkElement "" "HELLO"))
    by (vm_compute; reflexivity).
  assert (Hd : 500 <= 500) by lia.
  split; [reflexivity|]. split; [exact Hel|]. split; [reflexivity|].
  split; [exact Hgaps|]. split; [exact Hd|].
  exact (refreshLCD_debounce Sample.page (mkElement "" "HELLO") "H"
           [(120, "HE"); (499, "HEL" +:+ String LF "LO")] 500
           eq_refl Hel eq_refl Hgaps Hd).
Defined.

Lemma doAjax_blank_url_rejected_witness :
  blank_url (Some "") /\
  exists st',
    doAjax (Some "") (Some "POST") None None Sample.page = (Ret (Bool false), st') /\
    w_requests st' = w_requests Sample.page /\
    w_alerts st' = w_alerts Sample.page ++ ["URL can not be null/blank"].
Proof.
  split; [right; reflexivity|].
  apply (doAjax_blank_url_rejected (Some "") (Some "POST") None None Sample.page).
  right; reflexivity.
Defined.

Lemma doAjax_abort_effects_witness :
  (blank_url (Some "/init") \/ no_transport Sample.page_without_transport) /\
  (exists v msg,
     doAjax (Some "/init") (Some "POST") None None Sample.page_without_transport
     = (Ret v,
        set_alerts (w_alerts Sample.page_without_transport ++ [msg])
          (set_heap (merged_heap None Sample.page_without_transport)
             (set_async (Bool true) Sample.page_without_transport)))).
Proof.
  split; [right; reflexivity|].
  apply (doAjax_abort_effects (Some "/init") (Some "POST") None None
           Sample.page_without_transport).
  right; reflexivity.
Defined.

Lemma refreshLCDHandler_silent_witness :
  ~ (readyState (mkXhr 3 200 "OK" Sample.refresh_response) = 4 /\
     status (mkXhr 3 200 "OK" Sample.refresh_response) = 200) /\
  refreshLCDHandler JSONRef.JSON_parse (mkXhr 3 200 "OK" Sample.refresh_response)
    Sample.page
  = (Ret tt, Sample.page).
Proof.
  split; [cbn; lia|].
  apply (refreshLCDHandler_silent_unless_done_ok JSONRef.JSON_parse).
  cbn; lia.
Defined.

Lemma refreshLCDHandler_round_trip_witness :
  let this := mkXhr 4 200 "OK" Sample.refresh_response in
  readyState this = 4 /\ status this = 200 /\
  truthy_str (responseText this) = true /\
  JSONRef.JSON_parse (responseText this)
  = Ret (Obj [("result", Str "<svg>HELLO</svg>")]) /\
  lookup_prop "result" [("result", Str "<svg>HELLO</svg>")]
  = Some (Str "<svg>HELLO</svg>") /\
  w_dom Sample.page !! "lcd-screenshot-content" = Some (mkElement "<svg>X</svg>" "") /\
  exists st',
    refreshLCDHandler JSONRef.JSON_parse this Sample.page = (Ret tt, st') /\
    innerHTML <$> w_dom st' !! "lcd-screenshot-content"
    = Some (w_markup Sample.page "<svg>HELLO</svg>") /\
    (w_markup Sample.page "<svg>HELLO</svg>" = "<svg>HELLO</svg>" ->
     innerHTML <$> w_dom st' !! "lcd-screenshot-content" = Some "<svg>HELLO</svg>").
Proof.
  intros this. repeat (split; [reflexivity|]).
  apply (refreshLCDHandler_round_trip JSONRef.JSON_parse this Sample.page
           [("result", Str "<svg>HELLO</svg>")] "<svg>HELLO</svg>"
           (mkElement "<svg>X</svg>" ""));
    reflexivity.
Defined.

Lemma doAjax_request_carries_token_witness :
  let st := Sample.page_with_object in
  let sent := w_requests (snd (doAjax (Some "/save/screenshot") None None (Some 0) st)) in
  valid_data (Some 0) st /\
  sent <> w_requests st /\
  exists r merged,
    sent = w_requests st ++ [r] /\
    req_body r = JSON_stringify (Obj merged) /\
    lookup_prop "token" merged = Some (w_token st) /\
    (forall k, k <> "token" ->
       lookup_prop k merged = lookup_prop k (caller_body (Some 0) st)) /\
    (forall s, JSON_stringify (w_token st) = Some s ->
       req_body r = Some ("{" +:+ join "," (serialized_members merged) +:+ "}") /\
       In (quote "token" +:+ ":" +:+ s) (serialized_members merged)) /\
    req_method r = or_str None "GET" /\
    (@None string = None -> req_method r = "GET") /\
    (req_method r = "POST" -> req_headers r = content_type_json).
Proof.
  intros st sent.
  assert (Hv : valid_data (Some 0) st) by (vm_compute; eauto).
  assert (Hs : sent <> w_requests st) by (vm_compute; discriminate).
  repeat split; [exact Hv | exact Hs |].
  exact (doAjax_request_carries_token (Some "/save/screenshot") None None (Some 0)
           st Hv Hs).
Defined.

Lemma saveScreenshot_request_witness :
  w_dom Sample.page !! "lcd-screenshot-content" = Some (mkElement "<svg>X</svg>" "") /\
  has_transport Sample.page = true /\
  exists st',
    saveScreenshot Sample.page = (Ret Undefined, st') /\
    w_requests st'
    = w_requests Sample.page ++
      [mkRequest "POST" "/save/screenshot" (Bool true) content_type_json
         (Some cb_saveScreenshot)
         (JSON_stringify
            (Obj [("svg-data", Str "<svg>X</svg>"); ("token", w_token Sample.page)]))].
Proof.
  repeat (split; [reflexivity|]).
  apply (saveScreenshot_request Sample.page (mkElement "<svg>X</svg>" ""));
    reflexivity.
Defined.

Lemma refreshLCDHandler_empty_response_witness :
  let this := mkXhr 4 200 "OK" "" in
  readyState this = 4 /\ status this = 200 /\ responseText this = "" /\
  refreshLCDHandler JSONRef.JSON_parse this Sample.page = (Ret tt, Sample.page).
Proof.
  intros this. repeat (split; [reflexivity|]).
  apply (refreshLCDHandler_empty_response JSONRef.JSON_parse this Sample.page);
    reflexivity.
Defined.

(** ** Further properties of the script *)

(** *** The lines of the text input *)

Lemma split_lines_cons (s : string) :
  exists l ls, split_lines s = l :: ls.
Proof.
  destruct s as [|c s]; cbn; [now eexists _, _|].
  destruct (Ascii.eqb c LF); [now eexists _, _|].
  destruct (split_lines s); now eexists _, _.
Qed.

Lemma join_cons_char (sep : string) (c : ascii) (l : string) (ls : list string) :
  join sep (String c l :: ls) = String c (join sep (l :: ls)).
Proof. now destruct ls. Qed.

Lemma join_split_lines (s : string) : join (String LF "") (split_lines s) = s.
Proof.
  induction s as [|c s IH]; [reflexivity|]. cbn [split_lines].
  destruct (Ascii.eqb c LF) eqn:E.
  - apply Ascii.eqb_eq in E. subst c.
    destruct (split_lines_cons s) as (l & ls & Hs). rewrite Hs in IH |- *.
    cbn [join]. cbn. now rewrite <- IH.
  - destruct (split_lines_cons s) as (l & ls & Hs). rewrite Hs in IH |- *.
    now rewrite join_cons_char, IH.
Qed.

Lemma length_split_lines (s : string) :
  length (split_lines s) = S (count_LF s).
Proof.
  induction s as [|c s IH]; [reflexivity|]. cbn [split_lines count_LF].
  destruct (Ascii.eqb c LF); cbn [length]; [now rewrite IH|].
  destruct (split_lines_cons s) as (l & ls & Hs). rewrite Hs in IH |- *.
  exact IH.
Qed.

Lemma split_lines_no_LF (s : string) :
  Forall (fun l => has_LF l = false) (split_lines s).
Proof.
  induction s as [|c s IH]; [now repeat constructor|]. cbn [split_lines].
  destruct (Ascii.eqb c LF) eqn:E; [now constructor|].
  destruct (split_lines_cons s) as (l & ls & Hs). rewrite Hs in IH |- *.
  inversion IH as [|? ? Hl Hls]; subst. constructor; [|exact Hls].
  cbn [has_LF]. now rewrite E, Hl.
Qed.

(** X1: on a page with the text input, [getTextInputAsLines] changes
    nothing and returns the value cut at its line feeds: one more line than
    there are line feeds, empty lines included, none holding a line feed, and
    joined by line feeds they give the value back. *)
Theorem getTextInputAsLines_lines (st : World) (el : element) :
  w_dom st !! "text-input" = Some el ->
  exists lines,
    getTextInputAsLines st = (Ret lines, st) /\
    join (String LF "") lines = value el /\
    length lines = S (count_LF (value el)) /\
    Forall (fun l => has_LF l = false) lines.
Proof.
  intros Hel. exists (split_lines (value el)). split.
  - unfold getTextInputAsLines. run_script. rewrite Hel. run_script.
    now rewrite Hel.
  - split; [apply join_split_lines|].
    split; [apply length_split_lines | apply split_lines_no_LF].
Qed.

Lemma getTextInputAsLines_lines_witness :
  w_dom Sample.page !! "text-input" = Some (mkElement "" "HELLO") /\
  exists lines,
    getTextInputAsLines Sample.page = (Ret lines, Sample.page) /\
    join (String LF "") lines = "HELLO" /\
    length lines = S (count_LF "HELLO") /\
    Forall (fun l => has_LF l = false) lines.
Proof.
  split; [reflexivity|].
  apply (getTextInputAsLines_lines Sample.page (mkElement "" "HELLO")).
  reflexivity.
Defined.

(** X2: on a page without the text input the function [refreshLCD] gave
    to [setTimeout] throws a TypeError before it builds a request: nothing
    is sent, no alert is shown, and the host is left with the exception. *)
Theorem refreshLCD_timeout_without_input (st : World) :
  w_dom st !! "text-input" = None ->
  run_task refreshLCD_timeout st
  = set_uncaught (w_uncaught st ++ [TypeError "cannot read value of null"]) st.
Proof.
  intros H. unfold run_task, refreshLCD_timeout, getTextInputAsLines.
  run_script. rewrite H. reflexivity.
Qed.

Lemma refreshLCD_timeout_without_input_witness :
  let st := set_dom ∅ Sample.page in
  w_dom st !! "text-input" = None /\
  run_task refreshLCD_timeout st
  = set_uncaught (w_uncaught st ++ [TypeError "cannot read value of null"]) st.
Proof.
  intros st. split; [reflexivity|].
  apply (refreshLCD_timeout_without_input st). reflexivity.
Defined.

(** *** [doAjax], whatever it is given *)

(** The three ways a call ends, for any arguments: the heap it leaves and,
    when it sends, the body are left open here. *)
Lemma doAjax_cases (url method : option string)
    (responseHandler : option callback) (data : option nat) (st : World) :
  exists heap',
    (blank_url url /\
     doAjax url method responseHandler data st
     = (Ret (Bool false),
        set_alerts (w_alerts st ++ ["URL can not be null/blank"])
          (set_heap heap' (set_async (Bool true) st)))) \/
    (~ blank_url url /\ has_transport st = false /\
     doAjax url method responseHandler data st
     = (Ret Undefined,
        set_alerts (w_alerts st ++ ["Please use browser with Ajax support.!"])
          (set_heap heap' (set_async (Bool true) st)))) \/
    (~ blank_url url /\ has_transport st = true /\
     exists body,
       doAjax url method responseHandler data st
       = (Ret Undefined,
          set_requests
            (w_requests st ++
             [mkRequest (or_str method "GET") (or_str url "") (Bool true)
                (if String.eqb (or_str method "GET") "POST"
                 then content_type_json else [])
                responseHandler body])
            (set_heap heap' (set_async (Bool true) st)))).
Proof.
  assert (Hb : blank_url url <-> or_str url "" = "")
    by (symmetry; apply or_str_blank).
  unfold doAjax, has_transport.
  destruct (String.eqb (or_str url "") "") eqn:E.
  - apply String.eqb_eq, Hb in E.
    destruct data; run_script; eexists; left; (split; [exact E | reflexivity]).
  - apply String.eqb_neq in E. rewrite <- Hb in E.
    destruct data; run_script;
      destruct (w_XMLHttpRequest st), (w_ActiveXObject st); run_script;
      eexists;
      first [ right; left; split; [exact E|]; split; reflexivity
            | right; right; split; [exact E|]; split; [reflexivity|];
              eexists; destruct (String.eqb (or_str method "GET") "POST");
              reflexivity ].
Qed.

(** X3: whatever its arguments (that the transport accepts), a call of
    [doAjax] returns and ends in exactly one of two ways: with a blank URL or no
    transport object it shows one alert and sends nothing; otherwise it
    sends one request, to the URL and with the callback given, and shows no
    alert.  Either way the document and the timers are as they were. *)
Theorem doAjax_alert_or_request (url method : option string)
    (responseHandler : option callback) (data : option nat) (st : World) :
  exists v st',
    doAjax url method responseHandler data st = (Ret v, st') /\
    w_dom st' = w_dom st /\
    w_timers st' = w_timers st /\
    w_refreshLCDTimer st' = w_refreshLCDTimer st /\
    (((blank_url url \/ no_transport st) /\
      w_requests st' = w_requests st /\
      exists msg, w_alerts st' = w_alerts st ++ [msg]) \/
     (~ blank_url url /\ has_transport st = true /\
      w_alerts st' = w_alerts st /\
      exists r,
        w_requests st' = w_requests st ++ [r] /\
        req_url r = or_str url "" /\
        req_onreadystatechange r = responseHandler)).
Proof.
  destruct (doAjax_cases url method responseHandler data st)
    as (heap' & [(Hb & ->) | [(Hb & Ht & ->) | (Hb & Ht & body & ->)]]).
  - eexists _, _. split; [reflexivity|]. repeat (split; [reflexivity|]).
    left. split; [now left|]. split; [reflexivity | now eexists].
  - eexists _, _. split; [reflexivity|]. repeat (split; [reflexivity|]).
    left. split; [now right|]. split; [reflexivity | now eexists].
  - eexists _, _. split; [reflexivity|]. repeat (split; [reflexivity|]).
    right. repeat (split; [assumption || reflexivity|]).
    eexists. repeat split.
Qed.




(** *** The completion callbacks, whatever they are given *)

Section MoreCallbacks.

Variable JSON_parse : string -> outcome val.

(** X5: the save callback shows exactly one alert each time it runs and
    does nothing else: the success message exactly when the ready state is
    4 and the status 200, and otherwise the error message with the status
    code and the status text. *)
Theorem saveScreenshot_handler_one_alert (this : xhr) (st : World) :
  exists msg,
    saveScreenshot_handler this st
    = (Ret tt, set_alerts (w_alerts st ++ [msg]) st) /\
    (msg = "Screenshot saved successfully!"
     <-> readyState this = 4 /\ status this = 200) /\
    (msg <> "Screenshot saved successfully!" ->
     msg = "Error saving screenshot " +:+ dec_nat (status this) +:+ ": "
           +:+ statusText this).
Proof.
  unfold saveScreenshot_handler.
  destruct (not_done_ok this) eqn:E.
  - eexists. split; [reflexivity|]. apply not_done_ok_true in E. split.
    + split; [discriminate | tauto].
    + reflexivity.
  - eexists. split; [reflexivity|]. apply not_done_ok_false in E. split.
    + tauto.
    + congruence.
Qed.

(** X6: a response that does not parse.  The exception of [JSON.parse]
    leaves the refresh callback: the preview and the rest of the document
    stay as they were and nothing is logged. *)
Theorem refreshLCDHandler_malformed (this : xhr) (st : World) (e : exn) :
  readyState this = 4 -> status this = 200 ->
  truthy_str (responseText this) = true ->
  JSON_parse (responseText this) = Throw e ->
  refreshLCDHandler JSON_parse this st
  = (Throw e, set_parsed (w_parsed st ++ [responseText this]) st).
Proof.
  intros H1 H2 H3 H4. unfold refreshLCDHandler.
  rewrite (proj2 (not_done_ok_false this) (conj H1 H2)), H3.
  run_script. now rewrite H4.
Qed.


(** X8: a response that is the JSON text [null], on a page with the
    preview container: reading [result] throws a TypeError and the preview
    keeps its content. *)
Theorem refreshLCDHandler_null_response (this : xhr) (st : World) (el : element) :
  readyState this = 4 -> status this = 200 ->
  truthy_str (responseText this) = true ->
  JSON_parse (responseText this) = Ret Null ->
  w_dom st !! "lcd-screenshot-content" = Some el ->
  exists st',
    refreshLCDHandler JSON_parse this st
    = (Throw (TypeError "cannot read result of null"), st') /\
    w_dom st' = w_dom st.
Proof.
  intros H1 H2 H3 H4 H5. unfold refreshLCDHandler.
  rewrite (proj2 (not_done_ok_false this) (conj H1 H2)), H3.
  run_script. rewrite H4. run_script. rewrite H5. run_script.
  eexists. split; reflexivity.
Qed.

(** The cases of the refresh callback, for the proofs below. *)
Ltac refresh_cases this st :=
  unfold refreshLCDHandler;
  destruct (not_done_ok this); [|destruct (truthy_str (responseText this))];
  run_script;
  try destruct (JSON_parse (responseText this)) as [[| | | | | |]|];
  run_script;
  try destruct (w_dom st !! "lcd-screenshot-content") eqn:?;
  run_script.

(** X9: what the refresh callback never does, in any state and for any
    response, whether it returns or throws: it sends no request (a failed
    refresh is not tried again), shows no alert, sets or clears no
    timeout, changes neither the token nor any object of the script. *)
Theorem refreshLCDHandler_frame (this : xhr) (st : World) :
  let st' := snd (refreshLCDHandler JSON_parse this st) in
  w_requests st' = w_requests st /\
  w_alerts st' = w_alerts st /\
  w_timers st' = w_timers st /\
  w_refreshLCDTimer st' = w_refreshLCDTimer st /\
  w_token st' = w_token st /\
  w_heap st' = w_heap st.
Proof.
  refresh_cases this st; cbn [snd]; run_script; repeat split.
Qed.

Lemma refreshLCDHandler_dom (this : xhr) (st : World) :
  w_dom (run_task (refreshLCDHandler JSON_parse this) st)
  = refreshed_dom JSON_parse (w_markup st) this (w_dom st) /\
  w_markup (run_task (refreshLCDHandler JSON_parse this) st) = w_markup st.
Proof.
  unfold run_task, refreshed_dom.
  refresh_cases this st; (split; [|reflexivity]); try reflexivity;
    symmetry; apply alter_id; intros el' Hel'; congruence.
Qed.

Lemma alter_twice (f : element -> element) (k : string) (dom : gmap string element) :
  (forall el, f (f el) = f el) -> alter f k (alter f k dom) = alter f k dom.
Proof.
  intros Hf. apply map_eq. intros j. destruct (decide (k = j)) as [->|Hne].
  - rewrite !lookup_alter_eq. destruct (dom !! j); cbn; [now rewrite Hf | reflexivity].
  - now rewrite !lookup_alter_ne.
Qed.

(** X10: handling the same report twice changes the document no further
    than handling it once. *)
Theorem refreshLCDHandler_idempotent (this : xhr) (st : World) :
  w_dom (run_task (refreshLCDHandler JSON_parse this)
           (run_task (refreshLCDHandler JSON_parse this) st))
  = w_dom (run_task (refreshLCDHandler JSON_parse this) st).
Proof.
  destruct (refreshLCDHandler_dom this st) as [Hdom Hmarkup].
  rewrite (proj1 (refreshLCDHandler_dom this _)), Hmarkup, Hdom.
  unfold refreshed_dom.
  destruct (not_done_ok this); [reflexivity|].
  destruct (truthy_str (responseText this)); [|reflexivity].
  destruct (JSON_parse (responseText this)) as [[]|]; try reflexivity;
    now apply alter_twice.
Qed.

End MoreCallbacks.

Lemma refreshLCDHandler_malformed_witness :
  let this := mkXhr 4 200 "OK" "<html>Bad Gateway</html>" in
  let e := SyntaxError "not a JSON text of the fragment" in
  readyState this = 4 /\ status this = 200 /\
  truthy_str (responseText this) = true /\
  JSONRef.JSON_parse (responseText this) = Throw e /\
  refreshLCDHandler JSONRef.JSON_parse this Sample.page
  = (Throw e, set_parsed (w_parsed Sample.page ++ [responseText this]) Sample.page).
Proof.
  intros this e. repeat (split; [reflexivity|]).
  apply (refreshLCDHandler_malformed JSONRef.JSON_parse this Sample.page e);
    reflexivity.
Defined.


Lemma refreshLCDHandler_null_response_witness :
  let this := mkXhr 4 200 "OK" "null" in
  let el := mkElement "<svg>X</svg>" "" in
  readyState this = 4 /\ status this = 200 /\
  truthy_str (responseText this) = true /\
  JSONRef.JSON_parse (responseText this) = Ret Null /\
  w_dom Sample.page !! "lcd-screenshot-content" = Some el /\
  exists st',
    refreshLCDHandler JSONRef.JSON_parse this Sample.page
    = (Throw (TypeError "cannot read result of null"), st') /\
    w_dom st' = w_dom Sample.page.
Proof.
  intros this el. repeat (split; [reflexivity|]).
  apply (refreshLCDHandler_null_response JSONRef.JSON_parse this Sample.page el);
    reflexivity.
Defined.

Lemma refreshLCDHandler_missing_target_witness :
  let this := mkXhr 4 200 "OK" Sample.refresh_response in
  let st := Sample.page_without_preview in
  readyState this = 4 /\ status this = 200 /\
  truthy_str (responseText this) = true /\
  JSONRef.JSON_parse (responseText this) = Ret (Obj [("result", Str "<svg>HELLO</svg>")]) /\
  w_dom st !! "lcd-screenshot-content" = None /\
  refreshLCDHandler JSONRef.JSON_parse this st
  = (Ret tt,
     set_console
       (w_console st ++ ["Could not find element with id 'lcd-screenshot-content'"])
       (set_lcdContentElement ENull
          (set_parsed (w_parsed st ++ [responseText this]) st))).
Proof.
  intros this st. repeat (split; [reflexivity|]).
  apply (refreshLCDHandler_missing_target JSONRef.JSON_parse this st
           (Obj [("result", Str "<svg>HELLO</svg>")]));
    reflexivity.
Defined.

Lemma refreshLCD_reads_input_when_fired_witness :
  w_timers Sample.page = [] /\
  w_dom Sample.page !! "text-input" = Some (mkElement "" "HELLO") /\
  has_transport Sample.page = true /\
  Forall (fun e => fst e < 500) [(120, "HE")] /\
  500 <= 600 /\
  w_requests (advance 600 (type_text "HEY" (burst [(120, "HE")] (input_event "H" Sample.page))))
  = w_requests Sample.page ++ [refresh_request (w_token Sample.page) "HEY"].
Proof.
  assert (Hgaps : Forall (fun e : nat * string => fst e < 500) [(120, "HE")])
    by (repeat constructor; cbn; lia).
  assert (Hel : w_dom Sample.page !! "text-input" = Some (mkElement "" "HELLO"))
    by (vm_compute; reflexivity).
  assert (Hd : 500 <= 600) by lia.
  split; [reflexivity|]. split; [exact Hel|]. split; [reflexivity|].
  split; [exact Hgaps|]. split; [exact Hd|].
  exact (refreshLCD_reads_input_when_fired Sample.page (mkElement "" "HELLO") "H" "HEY"
           [(120, "HE")] 600 eq_refl Hel eq_refl Hgaps Hd).
Defined.

(** *** Saving what is shown, loading the page *)

(** X13: what is shown is what is saved.  After the refresh callback has
    assigned the result [R] of a response to the preview, [saveScreenshot]
    sends as [svg-data] the markup the preview then reads back, which is
    [R] as the host reads it back, with the token. *)
Theorem save_after_refresh (JSON_parse : string -> outcome val) (this : xhr)
    (st : World) (fs : list (string * val)) (R : string) (el : element) :
  readyState this = 4 -> status this = 200 ->
  truthy_str (responseText this) = true ->
  JSON_parse (responseText this) = Ret (Obj fs) ->
  lookup_prop "result" fs = Some (Str R) ->
  w_dom st !! "lcd-screenshot-content" = Some el ->
  has_transport st = true ->
  let st1 := run_task (refreshLCDHandler JSON_parse this) st in
  innerHTML <$> w_dom st1 !! "lcd-screenshot-content" = Some (w_markup st R) /\
  w_requests (run_task saveScreenshot st1)
  = w_requests st ++
    [mkRequest "POST" "/save/screenshot" (Bool true) content_type_json
       (Some cb_saveScreenshot)
       (JSON_stringify (Obj [("svg-data", Str (w_markup st R)); ("token", w_token st)]))].
Proof.
  intros H1 H2 H3 H4 H5 H6 Ht st1. subst st1.
  unfold run_task at 1 3. unfold refreshLCDHandler.
  rewrite (proj2 (not_done_ok_false this) (conj H1 H2)), H3.
  run_script. rewrite H4. run_script. rewrite H6. run_script. rewrite H5.
  cbn [default from_option id DOMString ToString].
  split.
  - now rewrite lookup_alter_eq, H6.
  - unfold run_task.
    rewrite (saveScreenshot_sends _ (mkElement (w_markup st R) (value el))).
    + reflexivity.
    + run_script. now rewrite lookup_alter_eq, H6.
    + exact Ht.
Qed.

Lemma save_after_refresh_witness :
  let this := mkXhr 4 200 "OK"
                ("{" +:+ quote "result" +:+ ":" +:+ quote "<svg><rect/></svg>" +:+ "}") in
  let fs := [("result", Str "<svg><rect/></svg>")] in
  let el := mkElement "<svg>X</svg>" "" in
  let st1 := run_task (refreshLCDHandler JSONRef.JSON_parse this) Sample.page in
  readyState this = 4 /\ status this = 200 /\
  truthy_str (responseText this) = true /\
  JSONRef.JSON_parse (responseText this) = Ret (Obj fs) /\
  lookup_prop "result" fs = Some (Str "<svg><rect/></svg>") /\
  w_dom Sample.page !! "lcd-screenshot-content" = Some el /\
  has_transport Sample.page = true /\
  w_markup Sample.page "<svg><rect/></svg>" = "<svg><rect></rect></svg>" /\
  innerHTML <$> w_dom st1 !! "lcd-screenshot-content"
  = Some (w_markup Sample.page "<svg><rect/></svg>") /\
  w_requests (run_task saveScreenshot st1)
  = w_requests Sample.page ++
    [mkRequest "POST" "/save/screenshot" (Bool true) content_type_json
       (Some cb_saveScreenshot)
       (JSON_stringify
          (Obj [("svg-data", Str (w_markup Sample.page "<svg><rect/></svg>"));
                ("token", w_token Sample.page)]))].
Proof.
  intros this fs el st1. repeat (split; [reflexivity|]).
  apply (save_after_refresh JSONRef.JSON_parse this Sample.page fs
           "<svg><rect/></svg>" el);
    reflexivity.
Defined.

(** X14: loading the page, in a browser with a transport object, sends
    one POST to [/init] whose body holds the token and nothing else, with
    no callback, so that no report on it has any effect; [refreshLCDTimer]
    starts as [null], and no alert is shown. *)
Theorem main_sends_init_only (JSON_parse : string -> outcome val) (st : World) :
  has_transport st = true ->
  exists st',
    main st = (Ret tt, st') /\
    w_requests st'
    = w_requests st ++
      [mkRequest "POST" "/init" (Bool true) content_type_json None
         (JSON_stringify (Obj [("token", w_token st)]))] /\
    w_refreshLCDTimer st' = None /\
    w_alerts st' = w_alerts st /\
    w_timers st' = w_timers st /\
    forall r this,
      last (w_requests st') = Some r ->
      readystatechange JSON_parse r this st' = st'.
Proof.
  intros Ht. unfold main. run_script.
  rewrite (doAjax_sends (Some "/init") (Some "POST") None None st);
    [| intros [H|H]; discriminate | exact Ht | exact I].
  eexists. split; [reflexivity|]. run_script.
  repeat (split; [reflexivity|]).
  intros r this Hr. rewrite last_snoc in Hr. injection Hr as <-. reflexivity.
Qed.

Lemma main_sends_init_only_witness :
  has_transport Sample.page = true /\
  exists st',
    main Sample.page = (Ret tt, st') /\
    w_requests st'
    = w_requests Sample.page ++
      [mkRequest "POST" "/init" (Bool true) content_type_json None
         (JSON_stringify (Obj [("token", w_token Sample.page)]))] /\
    w_refreshLCDTimer st' = None /\
    w_alerts st' = w_alerts Sample.page /\
    w_timers st' = w_timers Sample.page /\
    forall r this,
      last (w_requests st') = Some r ->
      readystatechange JSONRef.JSON_parse r this st' = st'.
Proof.
  split; [reflexivity|].
  apply (main_sends_init_only JSONRef.JSON_parse Sample.page). reflexivity.
Defined.

(** *** Any course of events *)

Lemma extends_refl (st : World) : extends st st.
Proof.
  repeat (split; [reflexivity|]). exists []. split; [now rewrite app_nil_r | constructor].
Qed.

Lemma extends_trans (st1 st2 st3 : World) :
  extends st1 st2 -> extends st2 st3 -> extends st1 st3.
Proof.
  intros (A1 & A2 & A3 & A4 & rs & A5 & A6) (B1 & B2 & B3 & B4 & rs' & B5 & B6).
  repeat split; try congruence.
  exists (rs ++ rs'). split; [now rewrite B5, A5, app_assoc | now apply Forall_app].
Qed.

(** A call of [doAjax] as the script makes them: a POST to one of its
    three URLs, with the callback that belongs to it. *)
Lemma doAjax_extends (url : string) (responseHandler : option callback)
    (data : option nat) (st : World) :
  script_request
    (mkRequest "POST" url (Bool true) content_type_json responseHandler None) = true ->
  extends st (run_task (doAjax (Some url) (Some "POST") responseHandler data) st).
Proof.
  intros Hr. unfold run_task.
  destruct (doAjax_cases (Some url) (Some "POST") responseHandler data st)
    as (heap' & [(Hb & ->) | [(Hb & Ht & ->) | (Hb & Ht & body & ->)]]);
    try apply extends_refl;
    repeat (split; [reflexivity|]).
  - exists []. split; [now rewrite app_nil_r | constructor].
  - exists []. split; [now rewrite app_nil_r | constructor].
  - eexists. split; [reflexivity|]. constructor; [|constructor].
    assert (Hu : or_str (Some url) "" = url).
    { destruct url; [|reflexivity]. exfalso. apply Hb. now right. }
    rewrite Hu. exact Hr.
Qed.

Lemma refreshLCD_timeout_extends (st : World) :
  extends st (run_task refreshLCD_timeout st).
Proof.
  unfold run_task, refreshLCD_timeout, getTextInputAsLines. run_script.
  destruct (w_dom st !! "text-input"); run_script; [|exact (extends_refl st)].
  match goal with
  | |- context [doAjax ?u ?m ?h ?d ?s] =>
      pose proof (doAjax_extends "/refresh/lcd" h d s eq_refl) as H
  end.
  unfold run_task in H. exact H.
Qed.

Lemma saveScreenshot_extends (st : World) :
  extends st (run_task saveScreenshot st).
Proof.
  unfold run_task, saveScreenshot. run_script.
  destruct (w_dom st !! "lcd-screenshot-content"); run_script;
    [|exact (extends_refl st)].
  match goal with
  | |- context [doAjax ?u ?m ?h ?d ?s] =>
      pose proof (doAjax_extends "/save/screenshot" h d s eq_refl) as H
  end.
  unfold run_task in H. exact H.
Qed.

Lemma timeouts_extend (due : list (positive * nat)) (st : World) :
  extends st (fold_left (fun s _ => run_task refreshLCD_timeout s) due st).
Proof.
  revert st. induction due as [|t due IH]; intros st; cbn [fold_left].
  - apply extends_refl.
  - eapply extends_trans; [apply refreshLCD_timeout_extends | apply IH].
Qed.

(** A millisecond: the timeouts that were due are gone from the pending
    list, the others stay. *)
Lemma tick_effects (st : World) :
  w_timers (tick st)
  = List.filter (fun t => negb (is_due (S (w_now st)) t)) (w_timers st) /\
  w_refreshLCDTimer (tick st) = w_refreshLCDTimer st /\
  w_token (tick st) = w_token st /\
  has_transport (tick st) = has_transport st /\
  exists rs,
    w_requests (tick st) = w_requests st ++ rs /\
    Forall (fun r => script_request r = true) rs.
Proof.
  unfold tick.
  set (st1 := set_timers _ _).
  destruct (timeouts_extend (List.filter (is_due (S (w_now st))) (w_timers st)) st1)
    as (H1 & H2 & H3 & H4 & H5).
  rewrite H1, H2, H3, H4. repeat (split; [reflexivity|]). exact H5.
Qed.

Section Events.

Variable JSON_parse : string -> outcome val.

Lemma readystatechange_extends (r : request) (this : xhr) (st : World) :
  extends st (readystatechange JSON_parse r this st).
Proof.
  unfold readystatechange. destruct (req_onreadystatechange r) as [[]|];
    [| |apply extends_refl]; unfold run_task, invoke.
  - unfold refreshLCDHandler.
    destruct (not_done_ok this); [|destruct (truthy_str (responseText this))];
      run_script; try apply extends_refl.
    destruct (JSON_parse (responseText this)) as [[]|]; run_script;
      destruct (w_dom st !! "lcd-screenshot-content"); run_script;
      repeat (split; [reflexivity|]);
      (exists []; split; [now rewrite app_nil_r | constructor]).
  - unfold saveScreenshot_handler.
    destruct (not_done_ok this); run_script;
      repeat (split; [reflexivity|]);
      (exists []; split; [now rewrite app_nil_r | constructor]).
Qed.

(** After an input-change event exactly one timeout is pending, named by
    [refreshLCDTimer], if at most one it names was pending before. *)
Lemma input_event_pending (v : string) (st : World) :
  at_most_one_pending st ->
  (exists h due,
     w_refreshLCDTimer (input_event v st) = Some h /\
     w_timers (input_event v st) = [(h, due)]) /\
  w_requests (input_event v st) = w_requests st.
Proof.
  intros Hp. unfold input_event, run_task. rewrite refreshLCD_eq.
  unfold type_text. run_script. split; [|reflexivity].
  eexists _, _. split; [reflexivity|].
  destruct Hp as [->|(h & due & -> & ->)].
  - now destruct (w_refreshLCDTimer st).
  - cbn. now rewrite Pos.eqb_refl.
Qed.

Lemma step_pending (st : World) (ev : event) :
  at_most_one_pending st -> at_most_one_pending (step JSON_parse st ev).
Proof.
  intros Hp. destruct ev as [v| | |i this]; cbn [step].
  - right. now apply input_event_pending.
  - destruct (tick_effects st) as (H1 & H2 & _).
    unfold at_most_one_pending. rewrite H1, H2.
    destruct Hp as [->|(h & due & Hh & ->)]; [now left|].
    cbn [List.filter].
    destruct (is_due (S (w_now st)) (h, due)); cbn [negb]; [now left|].
    right. now exists h, due.
  - destruct (saveScreenshot_extends st) as (H1 & H2 & _).
    unfold at_most_one_pending. now rewrite H1, H2.
  - destruct (w_requests st !! i) as [r|]; [|exact Hp].
    destruct (readystatechange_extends r this st) as (H1 & H2 & _).
    unfold at_most_one_pending. now rewrite H1, H2.
Qed.

(** X15: at most one refresh is ever pending.  If at most one timeout is
    pending and [refreshLCDTimer] names it (as on a page just loaded, where
    none is), the same holds after any course of events: input changes,
    time passing, saves and reports of the transport, in any order. *)
Theorem one_pending_refresh (evs : list event) (st : World) :
  at_most_one_pending st -> at_most_one_pending (run JSON_parse evs st).
Proof.
  revert st. induction evs as [|ev evs IH]; intros st Hp; cbn; [exact Hp|].
  apply IH. now apply step_pending.
Qed.

Lemma input_event_requests (v : string) (st : World) :
  w_requests (input_event v st) = w_requests st.
Proof. unfold input_event, run_task. now rewrite refreshLCD_eq. Qed.

Lemma step_requests (st : World) (ev : event) :
  exists rs,
    w_requests (step JSON_parse st ev) = w_requests st ++ rs /\
    Forall (fun r => script_request r = true) rs.
Proof.
  destruct ev as [v| | |i this]; cbn [step].
  - exists []. rewrite app_nil_r. split; [|constructor].
    apply input_event_requests.
  - now destruct (tick_effects st) as (_ & _ & _ & _ & H).
  - now destruct (saveScreenshot_extends st) as (_ & _ & _ & _ & H).
  - destruct (w_requests st !! i) as [r|].
    + now destruct (readystatechange_extends r this st) as (_ & _ & _ & _ & H).
    + exists []. rewrite app_nil_r. split; [reflexivity | constructor].
Qed.

(** X16: whatever happens on the page, a request once sent stays in the
    record of requests, and every request added is one of the script's
    three: a POST with the JSON content type, asynchronous, to [/init] with
    no callback, to [/refresh/lcd] with the refresh callback, or to
    [/save/screenshot] with the save callback. *)
Theorem requests_are_the_scripts (evs : list event) (st : World) :
  exists rs,
    w_requests (run JSON_parse evs st) = w_requests st ++ rs /\
    Forall (fun r => script_request r = true) rs.
Proof.
  revert st. induction evs as [|ev evs IH]; intros st.
  - exists []. rewrite app_nil_r. split; [reflexivity | constructor].
  - change (run JSON_parse (ev :: evs) st)
      with (run JSON_parse evs (step JSON_parse st ev)).
    destruct (step_requests st ev) as (rs1 & H1 & F1).
    destruct (IH (step JSON_parse st ev)) as (rs2 & H2 & F2).
    exists (rs1 ++ rs2). split; [now rewrite H2, H1, app_assoc | now apply Forall_app].
Qed.

End Events.

Lemma one_pending_refresh_witness :
  let st := run_task main Sample.page in
  let evs := [ev_input "HE"; ev_tick; ev_input "HELLO"; ev_save;
              ev_report 1 (mkXhr 4 200 "OK" "")] in
  at_most_one_pending st /\
  at_most_one_pending (run JSONRef.JSON_parse evs st).
Proof.
  intros st evs.
  assert (H : at_most_one_pending st) by (left; reflexivity).
  split; [exact H|].
  exact (one_pending_refresh JSONRef.JSON_parse evs st H).
Defined.

(** *** The debounce, for any schedule *)

Lemma tick_as_schedule (st : World) :
  tick st = host_do (host_do st (hs_wait 1)) hs_timeouts.
Proof.
  unfold tick, host_do, run_due_timeouts. cbn [w_now w_timers set_now].
  now rewrite Nat.add_1_r.
Qed.

(** What [debounced] says in the two cases the debounce is about.  A
    further event less than 500 ms after an event, whatever the host ran in
    between: the earlier text is dropped. *)
Lemma debounced_cancelled (v v' : string) (togo : nat)
    (mid sch : list host_step) :
  forallb no_input mid = true -> total_wait mid < togo ->
  debounced (Some (v, togo)) (mid ++ hs_input v' :: sch)
  = debounced (Some (v', 500)) sch.
Proof.
  revert togo. induction mid as [|hs mid IH]; intros togo Hni Hw; [reflexivity|].
  cbn [forallb] in Hni. apply andb_prop in Hni as [H1 H2].
  change (total_wait (hs :: mid)) with (time_of hs + total_wait mid) in Hw.
  destruct hs as [x|ms|]; [discriminate| |]; cbn [app debounced time_of] in *.
  - apply IH; [exact H2 | lia].
  - destruct togo as [|togo]; [lia|]. apply IH; [exact H2 | exact Hw].
Qed.

(** The host running the timeouts when 500 ms or more have passed since an
    event, with no event and no earlier run in between: the text is sent. *)
Lemma debounced_sent (v : string) (togo : nat) (waits : list nat)
    (sch : list host_step) :
  togo <= list_sum waits ->
  debounced (Some (v, togo)) ((hs_wait <$> waits) ++ hs_timeouts :: sch)
  = v :: debounced None sch.
Proof.
  revert togo. induction waits as [|ms waits IH]; intros togo Hw.
  - cbn in Hw |- *. now destruct togo; [|lia].
  - change (list_sum (ms :: waits)) with (ms + list_sum waits) in Hw.
    cbn [fmap list_fmap app debounced]. apply IH. lia.
Qed.

(** One step of a schedule, on the page and in the telling of the
    debounce: [sent] is what the step sends, [p'] what is pending after. *)
Lemma host_do_awaiting (st : World) (p : option (string * nat)) (hs : host_step) :
  awaiting st p -> has_transport st = true ->
  exists p' sent,
    (forall sch, debounced p (hs :: sch) = sent ++ debounced p' sch) /\
    awaiting (host_do st hs) p' /\
    has_transport (host_do st hs) = true /\
    w_token (host_do st hs) = w_token st /\
    w_requests (host_do st hs)
    = w_requests st ++ (refresh_request (w_token st) <$> sent).
Proof.
  intros (el & Hel & Hp) Ht. destruct hs as [v|ms|]; cbn [host_do].
  - exists (Some (v, 500)), []. split; [reflexivity|].
    unfold input_event, run_task. rewrite refreshLCD_eq.
    unfold type_text. run_script.
    split; [|split; [exact Ht|split; [reflexivity | now rewrite app_nil_r]]].
    exists (mkElement (innerHTML el) v). run_script.
    split; [now rewrite lookup_alter_eq, Hel|].
    split; [reflexivity|].
    exists (w_next_timer st), (w_now st + 500).
    split; [reflexivity|]. split; [|lia].
    destruct p as [[v0 togo]|].
    + destruct Hp as (_ & h & due & -> & -> & _). cbn. now rewrite Pos.eqb_refl.
    + rewrite Hp. now destruct (w_refreshLCDTimer st).
  - exists (match p with Some (v, togo) => Some (v, togo - ms) | None => None end), [].
    split; [reflexivity|].
    split; [|split; [exact Ht|split; [reflexivity | now rewrite app_nil_r]]].
    exists el. split; [exact Hel|].
    destruct p as [[v togo]|]; [|exact Hp].
    destruct Hp as (Hv & h & due & Hh & Htm & Hleft).
    split; [exact Hv|]. exists h, due. cbn [w_now set_now].
    repeat split; try assumption. lia.
  - unfold run_due_timeouts. destruct p as [[v [|togo]]|].
    + destruct Hp as (Hv & h & due & Hh & Htm & Hleft).
      exists None, [v]. split; [reflexivity|].
      assert (Hdue : is_due (w_now st) (h, due) = true)
        by (apply Nat.leb_le; cbn; lia).
      rewrite Htm. cbn [List.filter]. rewrite Hdue. cbn [negb fold_left].
      destruct (refreshLCD_timeout_sends (set_timers [] st) el)
        as (st' & Hrun & Hreq' & Htimers' & Hdom' & _); [exact Hel | exact Ht |].
      destruct (refreshLCD_timeout_extends (set_timers [] st))
        as (_ & _ & Htok' & Htr' & _).
      unfold run_task in Htok', Htr' |- *. rewrite Hrun in Htok', Htr' |- *.
      split; [|split; [now rewrite Htr'|split; [exact Htok'|]]].
      * exists el. rewrite Hdom', Htimers'. now split.
      * rewrite Hreq'. cbn. now rewrite Hv.
    + destruct Hp as (Hv & h & due & Hh & Htm & Hleft).
      exists (Some (v, S togo)), []. split; [reflexivity|].
      assert (Hdue : is_due (w_now st) (h, due) = false)
        by (apply Nat.leb_gt; cbn; lia).
      rewrite Htm. cbn [List.filter]. rewrite Hdue. cbn [negb fold_left].
      split; [|split; [exact Ht|split; [reflexivity | now rewrite app_nil_r]]].
      exists el. split; [exact Hel|]. split; [exact Hv|].
      exists h, due. now repeat split.
    + exists None, []. split; [reflexivity|].
      rewrite Hp. cbn [List.filter fold_left].
      split; [|split; [exact Ht|split; [reflexivity | now rewrite app_nil_r]]].
      exists el. now split.
Qed.

Lemma schedule_debounced (sch : list host_step) :
  forall (st : World) (p : option (string * nat)),
    awaiting st p -> has_transport st = true ->
    w_requests (schedule sch st)
    = w_requests st ++ (refresh_request (w_token st) <$> debounced p sch).
Proof.
  induction sch as [|hs sch IH]; intros st p Ha Ht.
  - cbn. now rewrite app_nil_r.
  - destruct (host_do_awaiting st p hs Ha Ht)
      as (p' & sent & Hd & Ha' & Ht' & Htok & Hreq).
    change (schedule (hs :: sch) st) with (schedule sch (host_do st hs)).
    rewrite (IH _ p' Ha' Ht'), Hd, Hreq, Htok, fmap_app. now rewrite app_assoc.
Qed.

(** X17: the debounce for any schedule of the host.  On a page with the
    text input and a transport object, with no timeout pending at the start,
    and for any succession of input-change events, time passing, and the
    host running the timeouts that are due (at once or late, never early),
    the requests sent are those of [debounced], in order: a text is sent
    when the host gets to run the timeouts 500 ms or more after the event
    that left it and before any further event; a further event before that
    makes the earlier text never sent. *)
Theorem refreshLCD_debounce_any_schedule (st : World) (el : element)
    (sch : list host_step) :
  w_timers st = [] ->
  w_dom st !! "text-input" = Some el ->
  has_transport st = true ->
  w_requests (schedule sch st)
  = w_requests st ++ (refresh_request (w_token st) <$> debounced None sch).
Proof.
  intros Htimers Hel Ht. apply schedule_debounced; [|exact Ht].
  exists el. now split.
Qed.

Lemma refreshLCD_debounce_any_schedule_witness :
  let sch := [hs_input "H"; hs_wait 300; hs_timeouts; hs_input "HE"; hs_wait 700;
              hs_input "HEL"; hs_timeouts; hs_wait 500; hs_wait 40; hs_timeouts;
              hs_timeouts; hs_input "HELLO"; hs_wait 499; hs_timeouts] in
  w_timers Sample.page = [] /\
  w_dom Sample.page !! "text-input" = Some (mkElement "" "HELLO") /\
  has_transport Sample.page = true /\
  debounced None sch = ["HEL"] /\
  w_requests (schedule sch Sample.page)
  = w_requests Sample.page ++
    (refresh_request (w_token Sample.page) <$> debounced None sch).
Proof.
  intros sch.
  assert (Hel : w_dom Sample.page !! "text-input" = Some (mkElement "" "HELLO"))
    by (vm_compute; reflexivity).
  split; [reflexivity|]. split; [exact Hel|]. split; [reflexivity|].
  split; [reflexivity|].
  exact (refreshLCD_debounce_any_schedule Sample.page (mkElement "" "HELLO") sch
           eq_refl Hel eq_refl).
Defined.

(** *** [getMethods] *)

Lemma getMethods_turn_app (result : list string) (p : property) :
  getMethods_turn result p = result ++ getMethods_turn [] p.
Proof. unfold getMethods_turn. now destruct (getMethods_try p). Qed.

Lemma fold_getMethods (obj : list property) (result : list string) :
  fold_left getMethods_turn obj result
  = result ++ fold_left getMethods_turn obj [].
Proof.
  revert result. induction obj as [|p obj IH]; intros result; cbn [fold_left].
  - now rewrite app_nil_r.
  - rewrite IH, (IH (getMethods_turn [] p)), getMethods_turn_app.
    now rewrite app_assoc.
Qed.

Lemma getMethods_cons (p : property) (obj : list property) :
  getMethods (p :: obj) = getMethods_turn [] p ++ getMethods obj.
Proof. unfold getMethods. cbn [fold_left]. apply fold_getMethods. Qed.

Lemma getMethods_turn_listing (p : property) :
  getMethods_turn [] p = match listing p with Some entry => [entry] | None => [] end.
Proof.
  unfold getMethods_turn, getMethods_try, listing.
  destruct (first_read p) as [r1|]; [|reflexivity].
  destruct (is_function r1); [|reflexivity].
  destruct (second_read p) as [r2|]; [|reflexivity].
  now destruct (toString_result r2).
Qed.

(** X18: [getMethods] never throws and returns, in the order the
    properties are visited, the entries of the properties that get one, one
    entry each: a property whose first read is a function is listed as its
    name, a colon, a space and what [toString()] returns, or [inaccessible]
    in place of that when the second read or [toString()] throws; a property
    whose first read throws is listed as [inaccessible]; a property whose
    first read is not a function is not listed.  The list for an object is
    so the lists of its parts one after the other. *)
Theorem getMethods_lists_functions (obj : list property) :
  getMethods obj = omap listing obj /\
  (forall obj1 obj2,
     obj = obj1 ++ obj2 -> getMethods obj = getMethods obj1 ++ getMethods obj2).
Proof.
  assert (H : forall o, getMethods o = omap listing o).
  { induction o as [|p o IH]; [reflexivity|].
    rewrite getMethods_cons, getMethods_turn_listing, IH. cbn [omap list_omap].
    now destruct (listing p). }
  split; [apply H|].
  intros obj1 obj2 ->. rewrite !H. apply omap_app.
Qed.
